(** * rag-scraper: crawl frontier, interactive selection, embedding and storage

    A shallow embedding of the Python modules [scraper-module.py],
    [interactive-scraper-module.py], [processor-module.py],
    [embeddings-module.py], [storage-module.py] and [cli-module.py], and the
    properties of the crawl-and-selection engine and of the content pipeline
    that the specification states about them.

    Conventions.  Python [str] is [string]; Python [int] is [Z]; a Python
    [set] is a [gset]; a Python [dict], whose insertion order the pipeline
    relies on, is an association list updated by [Py.dict_set]; a raised
    exception is [None] or an explicit error constructor.  Network, model and
    file system are explicit parameters or explicit state. *)

From Stdlib Require Import ZArith Lia String Ascii List.
From stdpp Require Import base gmap sets list strings.

Open Scope string_scope.
Open Scope list_scope.

(** ** Python built-ins used by the modules *)

Module Py.

(** [s.startswith(prefix)] *)
Definition startswith (s prefix : string) : bool := String.prefix prefix s.

(** [str.isspace] on one ASCII character: TAB, LF, VT, FF, CR, the four
    separators FS GS RS US, and SPACE.  The regular-expression class [\s]
    matches the same characters on ASCII text. *)
Definition isspace (c : ascii) : bool :=
  let n := nat_of_ascii c in
  ((9 <=? n)%nat && (n <=? 13)%nat) || ((28 <=? n)%nat && (n <=? 32)%nat).

Fixpoint lstrip (s : string) : string :=
  match s with
  | EmptyString => EmptyString
  | String c s' => if isspace c then lstrip s' else s
  end.

Definition rstrip (s : string) : string := String.rev (lstrip (String.rev s)).

(** [s.strip()] *)
Definition strip (s : string) : string := rstrip (lstrip s).

(** [s.lower()] on ASCII text. *)
Definition lower_char (c : ascii) : ascii :=
  let n := nat_of_ascii c in
  if ((65 <=? n)%nat && (n <=? 90)%nat) then ascii_of_nat (n + 32) else c.

Fixpoint lower (s : string) : string :=
  match s with
  | EmptyString => EmptyString
  | String c s' => String (lower_char c) (lower s')
  end.

(** [needle in haystack] for strings. *)
Fixpoint contains (haystack needle : string) : bool :=
  String.prefix needle haystack
  || match haystack with
     | EmptyString => false
     | String _ h' => contains h' needle
     end.

(** [s.split(sep)] for a one-character separator. *)
Fixpoint split_go (sep : ascii) (cur : string) (s : string) : list string :=
  match s with
  | EmptyString => [String.rev cur]
  | String c s' =>
      if Ascii.eqb c sep then String.rev cur :: split_go sep EmptyString s'
      else split_go sep (String c cur) s'
  end.

Definition split (sep : ascii) (s : string) : list string :=
  split_go sep EmptyString s.

(** [s.split(sep, 1)]: cut at the first separator only. *)
Fixpoint split1_go (sep : ascii) (cur : string) (s : string) : list string :=
  match s with
  | EmptyString => [String.rev cur]
  | String c s' =>
      if Ascii.eqb c sep then [String.rev cur; s']
      else split1_go sep (String c cur) s'
  end.

Definition split1 (sep : ascii) (s : string) : list string :=
  split1_go sep EmptyString s.

(** [sep.join(parts)] *)
Fixpoint join (sep : string) (parts : list string) : string :=
  match parts with
  | [] => EmptyString
  | [p] => p
  | p :: ps => p +:+ sep +:+ join sep ps
  end.

(** [s[:n] + "..." if len(s) > n else s] *)
Definition truncate (n : nat) (s : string) : string :=
  if (n <? String.length s)%nat then String.substring 0 n s +:+ "..." else s.

(** [l[i:j]] for non-negative [i] and [j]; empty when [j <= i]. *)
Definition slice {A} (i j : nat) (l : list A) : list A := take (j - i) (drop i l).

Section Dict.
Context {K V : Type} `{EqDecision K}.

(** [d[k] = v]: an existing key keeps its position. *)
Fixpoint dict_set (k : K) (v : V) (d : list (K * V)) : list (K * V) :=
  match d with
  | [] => [(k, v)]
  | (k', v') :: d' =>
      if decide (k = k') then (k, v) :: d' else (k', v') :: dict_set k v d'
  end.

(** [d[k]], [None] standing for [KeyError]. *)
Fixpoint dict_get (k : K) (d : list (K * V)) : option V :=
  match d with
  | [] => None
  | (k', v') :: d' => if decide (k = k') then Some v' else dict_get k d'
  end.

(** [list(d.keys())] *)
Definition keys (d : list (K * V)) : list K := map fst d.
End Dict.

End Py.

(** ** Configuration ([config-module.py]) *)

Record ScraperConfig := {
  domain : string;
  start_urls : list string;
  max_pages : Z;
  respect_robots_txt : bool;
  user_agent : string;
  max_depth : option Z;
  allowed_domains : list string
}.

(** The two [pre=True, always=True] validators of [ScraperConfig]. *)
Definition set_start_urls (v : list string) (dom : string) : list string :=
  match v with [] => ["https://" +:+ dom] | _ => v end.

Definition set_allowed_domains (v : list string) (dom : string) : list string :=
  match v with [] => [dom] | _ => v end.

(** [ScraperConfig(domain=..., max_pages=..., respect_robots_txt=...)] as
    [load_config] builds it: the other fields take their defaults. *)
Definition load_scraper_config (dom : string) (pages : Z) (robots : bool)
  : ScraperConfig :=
  {| domain := dom;
     start_urls := set_start_urls [] dom;
     max_pages := pages;
     respect_robots_txt := robots;
     user_agent := "RAG Scraper Bot (+https://example.com/bot)";
     max_depth := None;
     allowed_domains := set_allowed_domains [] dom |}.

Definition with_max_depth (d : option Z) (c : ScraperConfig) : ScraperConfig :=
  {| domain := domain c;
     start_urls := start_urls c;
     max_pages := max_pages c;
     respect_robots_txt := respect_robots_txt c;
     user_agent := user_agent c;
     max_depth := d;
     allowed_domains := allowed_domains c |}.

(** ** The network as the scrapers see it *)

(** What [urlparse] returns, restricted to the three components read. *)
Record ParseResult := { scheme : string; netloc : string; path : string }.

(** What one fetched page yields.  [anchors] is the list of [clean_url]
    values that [_extract_links] computes from the [a href] tags, in
    document order, before filtering; [None] when [urljoin] or [urlparse]
    raises on one of them. *)
Record Page := {
  title_tag : option string;
  description_tag : option string;
  main_text_size : nat;
  html_size : nat;
  anchors : option (list string)
}.

(** [Failed]: a status other than 200 or an exception raised by the request. *)
Inductive response :=
  | Failed
  | Ok200 (page : Page).

(** [urlparse] on URLs of the shape [scheme://netloc/path], the shape of
    every [clean_url]. *)
Definition urlparse_simple (url : string) : ParseResult :=
  match String.index 0 "://" url with
  | None => {| scheme := ""; netloc := ""; path := url |}
  | Some n =>
      let rest := String.substring (n + 3) (String.length url - (n + 3)) url in
      match String.index 0 "/" rest with
      | None => {| scheme := String.substring 0 n url; netloc := rest; path := "" |}
      | Some m =>
          {| scheme := String.substring 0 n url;
             netloc := String.substring 0 m rest;
             path := String.substring m (String.length rest - m) rest |}
      end
  end.

(** ** Crawl-exclusion rules ([_parse_robots_txt]) *)

(** One line of robots.txt: the loop body, on the pair
    [(user_agent_applies, self.disallowed_paths)]. *)
Definition robots_line (ua : string) (st : bool * list string) (line : string)
  : bool * list string :=
  let line := Py.strip line in
  if Py.startswith (Py.lower line) "user-agent:" then
    let agent := Py.strip (nth 1 (Py.split1 ":" line) "") in
    (String.eqb agent "*" || Py.contains ua agent, snd st)
  else if fst st && Py.startswith (Py.lower line) "disallow:" then
    let p := Py.strip (nth 1 (Py.split1 ":" line) "") in
    if String.eqb p "" then st else (fst st, snd st ++ [p])
  else st.

(** [robots] is the body of a 200 answer to the robots.txt request, [None]
    for any other status and for an exception: the rule list stays empty. *)
Definition _parse_robots_txt (ua : string) (robots : option string) : list string :=
  match robots with
  | None => []
  | Some text => snd (fold_left (robots_line ua) (Py.split "010" text) (false, []))
  end.

(** [self.disallowed_paths] at the end of [__init__]. *)
Definition init_disallowed_paths (config : ScraperConfig) (robots : option string)
  : list string :=
  if respect_robots_txt config then _parse_robots_txt (user_agent config) robots
  else [].

(** ** The crawl loop ([WebScraper] and [InteractiveWebScraper]) *)

(** Loop state: [self.visited_urls], the local [urls_to_visit], the log of
    [self.session.get] calls in the order they are issued, and what the loop
    collects ([content_map] in [scrape], [self.discovered_pages] in
    [discover_pages]). *)
Record crawl_state (R : Type) := CrawlState {
  visited_urls : gset string;
  urls_to_visit : list string;
  requests : list string;
  collected : R
}.
Arguments CrawlState {R}.
Arguments visited_urls {R}.
Arguments urls_to_visit {R}.
Arguments requests {R}.
Arguments collected {R}.

Section Crawl.
Variable urlparse : string -> ParseResult.
Variable session_get : string -> response.
Variable config : ScraperConfig.
Variable disallowed_paths : list string.

(** [_is_allowed], the same text in both classes. *)
Definition _is_allowed (url : string) : bool :=
  let parsed_url := urlparse url in
  if negb (bool_decide (netloc parsed_url ∈ allowed_domains config)) then false
  else
    forallb
      (fun p => negb (String.eqb p "/" || Py.startswith (path parsed_url) p))
      disallowed_paths.

(** [_extract_links], from the [clean_url] of each anchor on. *)
Definition _extract_links (visited : gset string) (hrefs : list string)
  : list string :=
  List.filter
    (fun clean_url => _is_allowed clean_url && negb (bool_decide (clean_url ∈ visited)))
    hrefs.

Section Loop.
Context {R : Type}.
(** What the [status_code == 200] branch stores before it extracts links. *)
Variable on_page : string -> Page -> R -> R.
(** The page budget: [self.config.max_pages] in [scrape], the argument
    [max_pages] in [discover_pages]. *)
Variable budget : Z.

(** [while urls_to_visit and len(self.visited_urls) < max_pages] *)
Definition loop_cond (s : crawl_state R) : bool :=
  match urls_to_visit s with
  | [] => false
  | _ :: _ => (Z.of_nat (size (visited_urls s)) <? budget)%Z
  end.

(** One iteration of the loop body. *)
Definition loop_body (s : crawl_state R) : crawl_state R :=
  match urls_to_visit s with
  | [] => s
  | url :: rest =>
      if decide (url ∈ visited_urls s) then
        CrawlState (visited_urls s) rest (requests s) (collected s)
      else
        let visited := {[url]} ∪ visited_urls s in
        let log := requests s ++ [url] in
        match session_get url with
        | Failed => CrawlState visited rest log (collected s)
        | Ok200 page =>
            let collected' := on_page url page (collected s) in
            match anchors page with
            | None => CrawlState visited rest log collected'
            | Some hrefs =>
                CrawlState visited (rest ++ _extract_links visited hrefs)
                  log collected'
            end
        end
  end.

(** The state after at most [n] iterations. *)
Fixpoint loop_iter (n : nat) (s : crawl_state R) : crawl_state R :=
  match n with
  | O => s
  | S n' => if loop_cond s then loop_iter n' (loop_body s) else s
  end.

(** The whole loop: [None] when [fuel] iterations do not reach the exit. *)
Fixpoint loop_run (fuel : nat) (s : crawl_state R) : option (crawl_state R) :=
  if loop_cond s then
    match fuel with
    | O => None
    | S fuel' => loop_run fuel' (loop_body s)
    end
  else Some s.
End Loop.

(** [output_dir / f"{filename}_{hash(url)}.html"]: the built-in [hash] of a
    string changes from one process to the next, so the file name is a
    parameter. *)
Variable content_path : string -> string.

(** A scraper as [__init__] leaves it, entering the loop of [scrape] or
    of [discover_pages]. *)
Definition fresh {R} (empty : R) : crawl_state R :=
  CrawlState ∅ (start_urls config) [] empty.

(** [WebScraper.scrape]: [content_map[url] = content_path]. *)
Definition scrape_on_page (url : string) (_ : Page)
    (content_map : list (string * string)) : list (string * string) :=
  Py.dict_set url (content_path url) content_map.

Definition scrape_iter (n : nat) : crawl_state (list (string * string)) :=
  loop_iter scrape_on_page (max_pages config) n (fresh []).

Definition scrape (fuel : nat) : option (list (string * string)) :=
  collected <$> loop_run scrape_on_page (max_pages config) fuel (fresh []).
End Crawl.

(** ** Discovery ([InteractiveWebScraper.discover_pages]) *)

(** The dictionary that [_extract_page_info] returns. *)
Record PageInfo := {
  info_url : string;
  info_title : string;
  info_description : string;
  info_content_size : nat;
  info_html_size : nat
}.

Definition _extract_page_info (url : string) (page : Page) : PageInfo :=
  {| info_url := url;
     info_title := default "No title" (title_tag page);
     info_description :=
       Py.truncate 100 (default "No description" (description_tag page));
     info_content_size := main_text_size page;
     info_html_size := html_size page |}.

Section Discover.
Variable urlparse : string -> ParseResult.
Variable session_get : string -> response.
Variable config : ScraperConfig.
Variable disallowed_paths : list string.

(** [self.discovered_pages[url] = page_info] *)
Definition discover_on_page (url : string) (page : Page)
    (discovered_pages : list (string * PageInfo)) : list (string * PageInfo) :=
  Py.dict_set url (_extract_page_info url page) discovered_pages.

Definition discover_iter (max_pages : Z) (n : nat)
  : crawl_state (list (string * PageInfo)) :=
  loop_iter urlparse session_get config disallowed_paths
    discover_on_page max_pages n (fresh config []).

Definition discover_pages (max_pages : Z) (fuel : nat)
  : option (list (string * PageInfo)) :=
  collected <$>
    loop_run urlparse session_get config disallowed_paths
      discover_on_page max_pages fuel (fresh config []).
End Discover.

(** ** Interactive selection ([select_pages_interactive]) *)

Module Py_int.

Definition digit_of (c : ascii) : option Z :=
  let n := nat_of_ascii c in
  if ((48 <=? n)%nat && (n <=? 57)%nat) then Some (Z.of_nat (n - 48)) else None.

(** Decimal digits, with single underscores allowed between two digits. *)
Fixpoint digits (acc : Z) (after_digit : bool) (s : string) : option Z :=
  match s with
  | EmptyString => if after_digit then Some acc else None
  | String c s' =>
      match digit_of c with
      | Some d => digits (10 * acc + d) true s'
      | None =>
          if Ascii.eqb c "_" && after_digit then digits acc false s' else None
      end
  end.

(** [int(s)] for a string: surrounding whitespace, an optional sign, then
    digits; [None] stands for [ValueError]. *)
Definition int (s : string) : option Z :=
  match Py.strip s with
  | String "+" r => digits 0 false r
  | String "-" r => Z.opp <$> digits 0 false r
  | r => digits 0 false r
  end.

End Py_int.

(** One entry of the comma-separated list: the indices it adds to
    [selected_indices].  [None]: [int] raises [ValueError], or the unpacking
    [start, end = ...] finds other than two fields. *)
Definition parse_part (part : string) : option (list Z) :=
  if Py.contains part "-" then
    match Py.split "-" part with
    | [a; b] =>
        match Py_int.int a, Py_int.int b with
        | Some start, Some end_ => Some (seqZ start (end_ + 1 - start))
        | _, _ => None
        end
    | _ => None
    end
  else
    match Py_int.int part with
    | Some i => Some [i]
    | None => None
    end.

(** The loop [for part in parts] filling the set [selected_indices]. *)
Fixpoint parse_indices (parts : list string) (selected_indices : gset Z)
  : option (gset Z) :=
  match parts with
  | [] => Some selected_indices
  | part :: parts' =>
      match parse_part part with
      | None => None
      | Some new => parse_indices parts' (list_to_set new ∪ selected_indices)
      end
  end.

(** [urls[idx - 1]] under the guard [1 <= idx <= len(urls)]. *)
Definition pick (urls : list string) (idx : Z) : option string :=
  if ((1 <=? idx)%Z && (idx <=? Z.of_nat (length urls))%Z)
  then urls !! Z.to_nat (idx - 1)
  else None.

(** The branch [choice == 2].  The result follows the iteration order of the
    set, which Python leaves unspecified, as [elements] does. *)
Definition select_by_index (indices_str : string) (urls : list string)
  : option (list string) :=
  match parse_indices (Py.split "," indices_str) ∅ with
  | None => None
  | Some selected_indices => Some (omap (pick urls) (elements selected_indices))
  end.

(** The branch [choice == 3]: the URLs whose URL, title or description
    contains the keyword, case-insensitively. *)
Definition keyword_filter (keyword : string)
    (discovered_pages : list (string * PageInfo)) : list string :=
  Py.keys
    (List.filter
       (fun '(url, info) =>
          Py.contains (Py.lower url) (Py.lower keyword)
          || Py.contains (Py.lower (info_title info)) (Py.lower keyword)
          || Py.contains (Py.lower (info_description info)) (Py.lower keyword))
       discovered_pages).

(** What the operator answers during one call of [select_pages_interactive]:
    the menu choice, the text typed at the prompt of choice 2 or 3, and the
    answer to the confirmation of choice 3. *)
Record answers := { choice : Z; text : string; confirm : bool }.

Inductive selection :=
  | Selected (selected_urls : list string)
  | ValueError   (** raised by the index parser, not caught in the method *)
  | Abort.       (** the prompts ran out of input *)

(** The method calls itself on an invalid choice and on a declined
    confirmation; each call consumes one entry of the script. *)
Fixpoint select_pages_interactive (discovered_pages : list (string * PageInfo))
    (script : list answers) : selection :=
  match script with
  | [] => Abort
  | a :: script' =>
      let urls := Py.keys discovered_pages in
      if (choice a =? 1)%Z then Selected urls
      else if (choice a =? 2)%Z then
        match select_by_index (text a) urls with
        | Some selected_urls => Selected selected_urls
        | None => ValueError
        end
      else if (choice a =? 3)%Z then
        if confirm a then Selected (keyword_filter (text a) discovered_pages)
        else select_pages_interactive discovered_pages script'
      else if (choice a =? 4)%Z then Selected []
      else select_pages_interactive discovered_pages script'
  end.

(** ** The interactive pass and the command line ([interactive_scrape], [main]) *)

Inductive outcome (A : Type) :=
  | Returned (a : A)
  | Raised.
Arguments Returned {A}.
Arguments Raised {A}.

(** The stages of [main] after the crawl. *)
Inductive stage := Process | Embed | Save.

(** What a run of [main] amounts to: the content map the crawl returned, the
    stages that were started, and the exit status of the process. *)
Record report := {
  scraped : list (string * string);
  stages : list stage;
  exit_status : Z
}.

Section Main.
Variable urlparse : string -> ParseResult.
Variable session_get : string -> response.
Variable config : ScraperConfig.
Variable disallowed_paths : list string.
Variable content_path : string -> string.

(** [scrape_selected_pages]: one request per selected URL, no link
    extraction. *)
Definition scrape_selected_pages (selected_urls : list string)
  : list (string * string) :=
  fold_left
    (fun content_map url =>
       match session_get url with
       | Ok200 _ => Py.dict_set url (content_path url) content_map
       | Failed => content_map
       end)
    selected_urls [].

(** [interactive_scrape]; [None] when [fuel] does not let discovery end. *)
Definition interactive_scrape (fuel : nat) (script : list answers)
  : option (outcome (list (string * string))) :=
  match discover_pages urlparse session_get config disallowed_paths
          (max_pages config) fuel with
  | None => None
  | Some discovered_pages =>
      Some
        match select_pages_interactive discovered_pages script with
        | Selected [] => Returned []
        | Selected selected_urls => Returned (scrape_selected_pages selected_urls)
        | ValueError => Raised
        | Abort => Raised
        end
  end.

(** The three later stages, whose code is outside the crawl engine: the
    processor never raises, the embedder and the storage may. *)
Context {P E : Type}.
Variable process_content : list (string * string) -> P.
Variable generate_embeddings : P -> option E.
Variable save : E -> option unit.

(** The part of [main] from [if not content_map] on. *)
Definition pipeline (content_map : list (string * string)) : report :=
  match content_map with
  | [] => {| scraped := []; stages := []; exit_status := 0 |}
  | _ :: _ =>
      let processed_content := process_content content_map in
      match generate_embeddings processed_content with
      | None =>
          {| scraped := content_map; stages := [Process; Embed]; exit_status := 1 |}
      | Some embeddings_data =>
          match save embeddings_data with
          | None =>
              {| scraped := content_map; stages := [Process; Embed; Save];
                 exit_status := 1 |}
          | Some _ =>
              {| scraped := content_map; stages := [Process; Embed; Save];
                 exit_status := 0 |}
          end
      end
  end.

(** [main]: an exception of the crawl step reaches [except Exception] and
    ends the process with status 1. *)
Definition main (interactive : bool) (fuel : nat) (script : list answers)
  : option report :=
  if interactive then
    match interactive_scrape fuel script with
    | None => None
    | Some (Returned content_map) => Some (pipeline content_map)
    | Some Raised => Some {| scraped := []; stages := []; exit_status := 1 |}
    end
  else
    pipeline <$> scrape urlparse session_get config disallowed_paths
                   content_path fuel.
End Main.

(** ** Text cleaning ([ContentProcessor._clean_text]) *)

Record ProcessorConfig := {
  min_content_length : Z;
  chunk_size : Z;
  chunk_overlap : Z;
  remove_emails : bool;
  remove_urls : bool;
  extract_headers : bool;
  extract_tables : bool
}.

(** [ProcessorConfig()] with its defaults. *)
Definition default_processor_config : ProcessorConfig :=
  {| min_content_length := 50; chunk_size := 1000; chunk_overlap := 200;
     remove_emails := true; remove_urls := false;
     extract_headers := true; extract_tables := true |}.

Definition newline : ascii := "010".

(** [re.sub(r'\s+', ' ', text)]: every maximal run of whitespace, line
    breaks included, becomes one space.  [in_run] tells that the previous
    character belonged to a run. *)
Fixpoint collapse_whitespace (in_run : bool) (text : string) : string :=
  match text with
  | EmptyString => EmptyString
  | String c text' =>
      if Py.isspace c then
        if in_run then collapse_whitespace true text'
        else String " " (collapse_whitespace true text')
      else String c (collapse_whitespace false text')
  end.

Section CleanText.
(** [re.sub(email_pattern, '[EMAIL]', text)], taken as given. *)
Variable redact_emails : string -> string.
Variable config : ProcessorConfig.

(** The text after the first two steps of [_clean_text]. *)
Definition normalized (text : string) : string :=
  let text := if remove_emails config then redact_emails text else text in
  Py.strip (collapse_whitespace false text).

Definition long_enough (line : string) : bool :=
  (min_content_length config <? Z.of_nat (String.length (Py.strip line)))%Z.

Definition _clean_text (text : string) : string :=
  let text := normalized text in
  let lines := Py.split newline text in
  let filtered_lines := List.filter long_enough lines in
  Py.join (String newline EmptyString) filtered_lines.
End CleanText.

(** ** Embedding generation ([EmbeddingGenerator.generate_embeddings]) *)

(** The Python objects that page metadata and the JSON sidecar are made
    of. *)
Unset Elimination Schemes.
Inductive pyobj :=
  | PStr (s : string)
  | PInt (z : Z)
  | PList (items : list pyobj)
  | PDict (items : list (string * pyobj)).
Set Elimination Schemes.

(** A dictionary with string keys, as page metadata is. *)
Abbreviation Metadata := (list (string * pyobj)).

Record EmbeddingConfig := {
  model_name : string;
  device : string;
  batch_size : Z;
  normalize_embeddings : bool
}.

(** [range(0, stop, step)] for [0 <= stop]; [None] is the [ValueError] of
    a zero step.  A negative step gives the empty range. *)
Definition py_range (stop step : Z) : option (list Z) :=
  if (step =? 0)%Z then None
  else if (0 <? step)%Z then
    Some (map (fun k => (Z.of_nat k * step)%Z)
            (seq 0 (Z.to_nat ((stop + step - 1) / step))))
  else Some [].

Section Embedder.
Context {vec : Type}.
Variable config : EmbeddingConfig.
(** [self.model.encode(batch, ...)], as the list of the rows it returns. *)
Variable encode : list string -> list vec.

(** First loop: all chunks in one list, and the index range of each URL. *)
Fixpoint collect_chunks (processed_content : list (string * (list string * Metadata)))
    (all_chunks : list string) (url_to_chunk_indices : list (string * (nat * nat)))
  : list string * list (string * (nat * nat)) :=
  match processed_content with
  | [] => (all_chunks, url_to_chunk_indices)
  | (url, (chunks, _)) :: rest =>
      let start_idx := length all_chunks in
      let all_chunks := all_chunks ++ chunks in
      let end_idx := length all_chunks in
      collect_chunks rest all_chunks
        (Py.dict_set url (start_idx, end_idx) url_to_chunk_indices)
  end.

(** Second loop: one [encode] call per batch. *)
Definition encode_batches (all_chunks : list string) : option (list vec) :=
  match py_range (Z.of_nat (length all_chunks)) (batch_size config) with
  | None => None
  | Some starts =>
      Some (flat_map
              (fun i => encode (Py.slice (Z.to_nat i)
                                  (Z.to_nat (i + batch_size config)) all_chunks))
              starts)
  end.

(** Third loop: the embeddings of each URL, cut out by its range. *)
Fixpoint regroup (processed_content : list (string * (list string * Metadata)))
    (url_to_chunk_indices : list (string * (nat * nat))) (embeddings : list vec)
    (results : list (string * (list string * list vec * Metadata)))
  : option (list (string * (list string * list vec * Metadata))) :=
  match processed_content with
  | [] => Some results
  | (url, (chunks, metadata)) :: rest =>
      match Py.dict_get url url_to_chunk_indices with
      | None => None
      | Some (start_idx, end_idx) =>
          let chunk_embeddings := Py.slice start_idx end_idx embeddings in
          regroup rest url_to_chunk_indices embeddings
            (Py.dict_set url (chunks, chunk_embeddings, metadata) results)
      end
  end.

(** [None]: the method raises. *)
Definition generate_embeddings
    (processed_content : list (string * (list string * Metadata)))
  : option (list (string * (list string * list vec * Metadata))) :=
  let '(all_chunks, url_to_chunk_indices) :=
    collect_chunks processed_content [] [] in
  match encode_batches all_chunks with
  | None => None
  | Some embeddings => regroup processed_content url_to_chunk_indices embeddings []
  end.
End Embedder.

(** ** Vector storage ([VectorStorage.save] and [VectorStorage.load]) *)

Record StorageConfig := {
  storage_type : string;
  index_path : string;
  metadata_path : string
}.

Section Storage.
(** The numbers of an embedding vector, and [astype(np.float32)] on one
    number. *)
Context {F : Type}.
Variable to_float32 : F -> F.
Variable config : StorageConfig.

(** What a file holds: an index written by [faiss.write_index] (its
    dimension and its vectors, in the order they were added), or a JSON
    document.  [json.dump] followed by [json.load] returns strings,
    integers, lists and string-keyed dictionaries as they were, so the
    document is kept as the object written. *)
Inductive file :=
  | FaissIndex (dimension : nat) (vectors : list (list F))
  | JsonDocument (doc : pyobj).

(** The inner loop [for i, (chunk, embedding) in enumerate(zip(chunks,
    chunk_embeddings))], from index [i] on: [zip] stops at the end of the
    shorter list. *)
Fixpoint flatten_url (i : nat) (chunks : list string)
    (chunk_embeddings : list (list F)) (metadata : Metadata)
  : list (string * list F * Metadata) :=
  match chunks, chunk_embeddings with
  | chunk :: chunks', embedding :: chunk_embeddings' =>
      let chunk_metadata :=
        Py.dict_set "chunk_text" (PStr (Py.truncate 100 chunk))
          (Py.dict_set "chunk_id" (PInt (Z.of_nat i)) metadata) in
      (chunk, embedding, chunk_metadata)
        :: flatten_url (S i) chunks' chunk_embeddings' metadata
  | _, _ => []
  end.

(** The outer loop: the three parallel lists, as one list of triples. *)
Definition flatten (embeddings_data : list (string * (list string * list (list F) * Metadata)))
  : list (string * list F * Metadata) :=
  flat_map (fun entry =>
              flatten_url 0 (fst (fst (snd entry))) (snd (fst (snd entry)))
                (snd (snd entry)))
    embeddings_data.

Definition all_chunks (embeddings_data : list (string * (list string * list (list F) * Metadata)))
  : list string :=
  map (fun t => fst (fst t)) (flatten embeddings_data).

Definition all_embeddings (embeddings_data : list (string * (list string * list (list F) * Metadata)))
  : list (list F) :=
  map (fun t => snd (fst t)) (flatten embeddings_data).

Definition all_metadata (embeddings_data : list (string * (list string * list (list F) * Metadata)))
  : list Metadata :=
  map snd (flatten embeddings_data).

(** [np.array(all_embeddings).shape[1]]: the common length of the vectors.
    [None]: no vector at all (the array has one axis and [shape[1]] raises
    [IndexError]), or vectors of different lengths (no rectangular array). *)
Definition np_dimension (rows : list (list F)) : option nat :=
  match rows with
  | [] => None
  | row :: rows' =>
      if forallb (fun r => (length r =? length row)%nat) rows'
      then Some (length row) else None
  end.

(** [save], on the files present before the call; [None]: it raises, before
    it writes anything. *)
Definition save (embeddings_data : list (string * (list string * list (list F) * Metadata)))
    (files : gmap string file) : option (gmap string file) :=
  match np_dimension (all_embeddings embeddings_data) with
  | None => None
  | Some dimension =>
      let index :=
        FaissIndex dimension (map (map to_float32) (all_embeddings embeddings_data)) in
      let metadata_obj :=
        PDict [("chunks", PList (map PStr (all_chunks embeddings_data)));
               ("metadata", PList (map PDict (all_metadata embeddings_data)))] in
      Some (<[metadata_path config := JsonDocument metadata_obj]>
              (<[index_path config := index]> files))
  end.

Inductive loaded :=
  | Loaded (dimension : nat) (vectors : list (list F)) (chunks metadata : pyobj)
  | FileNotFoundError
  | ReadError.   (** a file that is not what its reader expects *)

Definition load (files : gmap string file) : loaded :=
  match files !! index_path config, files !! metadata_path config with
  | Some index_file, Some metadata_file =>
      match index_file, metadata_file with
      | FaissIndex dimension vectors, JsonDocument (PDict metadata_obj) =>
          match Py.dict_get "chunks" metadata_obj,
                Py.dict_get "metadata" metadata_obj with
          | Some chunks, Some metadata => Loaded dimension vectors chunks metadata
          | _, _ => ReadError
          end
      | _, _ => ReadError
      end
  | _, _ => FileNotFoundError
  end.
End Storage.

(** ** Content processing ([ContentProcessor.process_html], [process_content]) *)

(** What the HTML libraries make of one document: the text of the [title]
    tag, the [content] attribute of the description and of the
    publication-time [meta] tags ([None] without the tag or the attribute),
    and the text that [html2text] returns once the navigation, footer,
    sidebar, advertisement, comment, script and style elements are taken
    out. *)
Record ParsedHtml := {
  html_title : option string;
  html_description : option string;
  html_published : option string;
  html_text : string
}.

(** [_extract_metadata]: the dictionary starts with the URL; a key is added
    for each tag that is present, the description and the date only when
    their content is not empty. *)
Definition _extract_metadata (parsed : ParsedHtml) (url : string) : Metadata :=
  let metadata := [("url", PStr url)] in
  let metadata :=
    match html_title parsed with
    | Some t => Py.dict_set "title" (PStr (Py.strip t)) metadata
    | None => metadata
    end in
  let metadata :=
    match html_description parsed with
    | Some content =>
        if String.eqb content "" then metadata
        else Py.dict_set "description" (PStr (Py.strip content)) metadata
    | None => metadata
    end in
  match html_published parsed with
  | Some content =>
      if String.eqb content "" then metadata
      else Py.dict_set "published_date" (PStr content) metadata
  | None => metadata
  end.

Section Processor.
Variable redact_emails : string -> string.
Variable config : ProcessorConfig.
(** The parser and converter; [None] when one of them raises. *)
Variable parse : string -> option ParsedHtml.
(** [self.text_splitter.split_text] *)
Variable split_text : string -> list string.
(** [file_path.read_text(encoding="utf-8")]; [None] when it raises. *)
Variable read_text : string -> option string.

(** [process_html]; [None] when it raises. *)
Definition process_html (html_content url : string)
  : option (list string * Metadata) :=
  match parse html_content with
  | None => None
  | Some parsed =>
      let metadata := _extract_metadata parsed url in
      let cleaned_text := _clean_text redact_emails config (html_text parsed) in
      if (Z.of_nat (String.length cleaned_text) <? min_content_length config)%Z
      then Some ([], metadata)
      else Some (split_text cleaned_text, metadata)
  end.

(** [process_content]: an exception while a page is read or processed is
    logged and the page is left out; so is a page without chunks. *)
Definition process_content (content_map : list (string * string))
  : list (string * (list string * Metadata)) :=
  fold_left
    (fun results '(url, file_path) =>
       match read_text file_path with
       | None => results
       | Some html_content =>
           match process_html html_content url with
           | None => results
           | Some ([], _) => results
           | Some (chunks, metadata) => Py.dict_set url (chunks, metadata) results
           end
       end)
    content_map [].
End Processor.

(** * Example inputs *)

(** ** A small site to run the crawler on *)

Module Site.

Definition home : string := "https://example.com".
Definition page_b : string := "https://example.com/b".
Definition page_c : string := "https://example.com/c".
Definition report : string := "https://example.com/private/report".

Definition plain (hrefs : list string) : Page :=
  {| title_tag := None; description_tag := None;
     main_text_size := 0; html_size := 0; anchors := Some hrefs |}.

(** [home] links to [page_b], which links to [page_c] and back to [home];
    [report] stands alone under [/private]. *)
Definition session_get (url : string) : response :=
  if String.eqb url home then Ok200 (plain [page_b])
  else if String.eqb url page_b then Ok200 (plain [page_c; home])
  else if String.eqb url page_c then Ok200 (plain [])
  else if String.eqb url report then Ok200 (plain [])
  else Failed.

Definition robots_txt : string :=
  "User-agent: *
Disallow: /private".

(** A site closed to every crawler. *)
Definition robots_txt_closed : string :=
  "User-agent: *
Disallow: /".

(** The configuration of [load_config "example.com"]. *)
Definition config : ScraperConfig := load_scraper_config "example.com" 1000 true.

(** The same, started at the report. *)
Definition config_report : ScraperConfig :=
  {| domain := "example.com";
     start_urls := [report];
     max_pages := 1000;
     respect_robots_txt := true;
     user_agent := user_agent config;
     max_depth := None;
     allowed_domains := ["example.com"] |}.

Definition content_path (url : string) : string := url +:+ ".html".

(** What discovery finds from [home]. *)
Definition discovered : list (string * PageInfo) :=
  [(home, _extract_page_info home (plain [page_b]));
   (page_b, _extract_page_info page_b (plain [page_c; home]));
   (page_c, _extract_page_info page_c (plain []))].

(** The URLs within [d] links of the start URLs. *)
Fixpoint within_depth (starts : list string) (d : nat) : list string :=
  match d with
  | O => starts
  | S d' =>
      let near := within_depth starts d' in
      near ++ flat_map
                (fun u => match session_get u with
                          | Ok200 page => default [] (anchors page)
                          | Failed => []
                          end) near
  end.

End Site.

(** ** Two page texts *)

Module Text.

Definition with_nav : string :=
  "Home
About us
This paragraph is the one long line of the page, well over fifty characters.".

Definition two_short_lines : string :=
  "first line of thirty chars ...
second line of thirty chars ..".

End Text.

(** ** Embeddings data to store *)

Module Stored.

Definition config : StorageConfig :=
  {| storage_type := "faiss";
     index_path := "data/index";
     metadata_path := "data/metadata.json" |}.

Definition page_metadata : Metadata :=
  [("url", PStr "https://example.com"); ("title", PStr "Example")].

(** Two chunks with their two embeddings. *)
Definition aligned : list (string * (list string * list (list Z) * Metadata)) :=
  [("https://example.com",
    (["first chunk"; "second chunk"], [[1; 2; 3]; [4; 5; 6]]%Z, page_metadata))].

(** Two chunks with one embedding. *)
Definition mismatched : list (string * (list string * list (list Z) * Metadata)) :=
  [("https://example.com",
    (["first chunk"; "second chunk"], [[1; 2; 3]]%Z, page_metadata))].

End Stored.

(** * Predicates and functions of the statements *)

(** The visited set is within the budget, every request went to a
    different URL, and the requested URLs are the visited ones. *)
Definition frontier_inv {R : Type} (budget : Z) (s : crawl_state R) : Prop :=
  (Z.of_nat (size (visited_urls s)) <= budget)%Z
  ∧ NoDup (requests s)
  ∧ ∀ u, u ∈ requests s ↔ u ∈ visited_urls s.

(** Every URL in the queue passed [_is_allowed], as soon as the
    initial queue did. *)
Definition queue_allowed {R : Type} (urlparse : string -> ParseResult)
    (config : ScraperConfig) (disallowed_paths : list string)
    (s : crawl_state R) : Prop :=
  (∀ u, u ∈ urls_to_visit s → _is_allowed urlparse config disallowed_paths u = true)
  ∧ (∀ u, u ∈ requests s → _is_allowed urlparse config disallowed_paths u = true).

(** A call that ends in a further call of the method: an invalid choice,
    or a keyword filter whose confirmation is declined. *)
Definition reenters (a : answers) : bool :=
  negb ((choice a =? 1)%Z || (choice a =? 2)%Z || (choice a =? 3)%Z
        || (choice a =? 4)%Z)
  || ((choice a =? 3)%Z && negb (confirm a)).

(** A call that selects nothing: choice 4, or a confirmed keyword filter
    that no discovered page matches. *)
Definition selects_nothing (discovered_pages : list (string * PageInfo))
    (a : answers) : bool :=
  (choice a =? 4)%Z
  || ((choice a =? 3)%Z && confirm a
      && bool_decide (keyword_filter (text a) discovered_pages = [])).

(** A well-formed entry, in the words of the menu: an integer, or two
    integers around one hyphen. *)
Definition well_formed_token (part : string) : bool :=
  bool_decide (is_Some (Py_int.int part))
  || match Py.split "-" part with
     | [a; b] =>
         bool_decide (is_Some (Py_int.int a)) && bool_decide (is_Some (Py_int.int b))
     | _ => false
     end.

(** [c in s] for one character. *)
Fixpoint has_char (c : ascii) (s : string) : bool :=
  match s with
  | EmptyString => false
  | String c' s' => Ascii.eqb c' c || has_char c s'
  end.

(** The ranges that the first loop records, for chunks starting at
    offset [a]. *)
Fixpoint ranges (a : nat) (processed_content : list (string * (list string * Metadata)))
  : list (string * (nat * nat)) :=
  match processed_content with
  | [] => []
  | (url, (chunks, _)) :: rest =>
      (url, (a, a + length chunks)) :: ranges (a + length chunks) rest
  end.

Definition all_chunks_of (processed_content : list (string * (list string * Metadata)))
  : list string :=
  flat_map (fun entry => fst (snd entry)) processed_content.

Definition embedded {vec : Type} (embed_one : string -> vec)
    (entry : string * (list string * Metadata))
  : string * (list string * list vec * Metadata) :=
  (fst entry, (fst (snd entry), map embed_one (fst (snd entry)), snd (snd entry))).

(** What a loop whose [status_code == 200] branch runs
    [collected[url] = f url page] has stored for a requested URL. *)
Definition stored_for {V : Type} (session_get : string -> response)
    (f : string -> Page -> V) (url : string) : option (string * V) :=
  match session_get url with
  | Ok200 page => Some (url, f url page)
  | Failed => None
  end.

(** The request to [url] is answered with status 200. *)
Definition answers_200 (session_get : string -> response) (url : string) : bool :=
  match session_get url with
  | Ok200 _ => true
  | Failed => false
  end.

(** The part of the loop state that decides what is requested next. *)
Definition frontier {R : Type} (s : crawl_state R)
  : gset string * list string * list string :=
  (visited_urls s, urls_to_visit s, requests s).

(** Every request went to a different URL, and the requested URLs are the
    visited ones. *)
Definition log_inv {R : Type} (s : crawl_state R) : Prop :=
  NoDup (requests s) ∧ ∀ u, u ∈ requests s ↔ u ∈ visited_urls s.

(** A line of robots.txt that opens a group: after [strip] and [lower] it
    starts with [user-agent:]. *)
Definition is_agent_line (line : string) : bool :=
  Py.startswith (Py.lower (Py.strip line)) "user-agent:".

(** An entry of the embedder's result that carries no embedding. *)
Definition unembedded {vec : Type} (entry : string * (list string * Metadata))
  : string * (list string * list vec * Metadata) :=
  (fst entry, (fst (snd entry), [], snd (snd entry))).

(** What [process_content] stores for one entry of the content map, if it
    stores anything. *)
Definition kept (redact_emails : string -> string) (config : ProcessorConfig)
    (parse : string -> option ParsedHtml) (split_text : string -> list string)
    (read_text : string -> option string) (url file_path : string)
  : option (list string * Metadata) :=
  match read_text file_path with
  | None => None
  | Some html_content =>
      match process_html redact_emails config parse split_text html_content url with
      | None => None
      | Some ([], _) => None
      | Some (chunks, metadata) => Some (chunks, metadata)
      end
  end.

(** The storage stage as [main] runs it, on the files present. *)
Definition storage_stage {F : Type} (to_float32 : F -> F) (config : StorageConfig)
    (files : gmap string file)
    (embeddings_data : list (string * (list string * list (list F) * Metadata)))
  : option unit :=
  (fun _ => tt) <$> save to_float32 config embeddings_data files.

(** The start URLs and the allowed links of every page fetched so far are
    visited or wait in the queue. *)
Definition links_covered {R : Type} (urlparse : string -> ParseResult)
    (session_get : string -> response) (config : ScraperConfig)
    (disallowed_paths : list string) (s : crawl_state R) : Prop :=
  (∀ u, u ∈ start_urls config → u ∈ visited_urls s ∨ u ∈ urls_to_visit s)
  ∧ ∀ u page hrefs h,
      u ∈ requests s → session_get u = Ok200 page → anchors page = Some hrefs →
      h ∈ hrefs → _is_allowed urlparse config disallowed_paths h = true →
      h ∈ visited_urls s ∨ h ∈ urls_to_visit s.

(** * Proofs *)

(** ** Properties of the crawl loop *)

Section CrawlFacts.
Variable urlparse : string -> ParseResult.
Variable session_get : string -> response.
Variable config : ScraperConfig.
Variable disallowed_paths : list string.
Context {R : Type}.
Variable on_page : string -> Page -> R -> R.
Variable budget : Z.

Abbreviation body := (loop_body urlparse session_get config disallowed_paths on_page).
Abbreviation cond := (loop_cond (R:=R) budget).
Abbreviation iter := (loop_iter urlparse session_get config disallowed_paths on_page budget).
Abbreviation run := (loop_run urlparse session_get config disallowed_paths on_page budget).
Abbreviation allowed := (_is_allowed urlparse config disallowed_paths).
Abbreviation inv := (frontier_inv budget).
Abbreviation all_allowed := (queue_allowed urlparse config disallowed_paths).

Lemma size_visit (url : string) (V : gset string) :
  url ∉ V → size ({[url]} ∪ V) = S (size V).
Proof.
  intros Hn. rewrite size_union by set_solver. by rewrite size_singleton.
Qed.

Lemma cond_true_inv s :
  cond s = true →
  ∃ url rest, urls_to_visit s = url :: rest
              ∧ (Z.of_nat (size (visited_urls s)) < budget)%Z.
Proof.
  unfold loop_cond. destruct (urls_to_visit s) as [|url rest]; [done|].
  intros H%Z.ltb_lt. eauto.
Qed.

(** The three shapes of one iteration. *)
Lemma body_cases s url rest :
  urls_to_visit s = url :: rest →
  (url ∈ visited_urls s
   ∧ body s = CrawlState (visited_urls s) rest (requests s) (collected s))
  ∨ ((url ∉ visited_urls s)
     ∧ visited_urls (body s) = {[url]} ∪ visited_urls s
     ∧ requests (body s) = requests s ++ [url]
     ∧ ∃ new, urls_to_visit (body s) = (rest ++ new)
              ∧ ∀ u, u ∈ new → allowed u = true ∧ u ∉ visited_urls (body s)).
Proof.
  intros Hq. unfold loop_body. rewrite Hq.
  destruct (decide (url ∈ visited_urls s)) as [Hin|Hnin]; [left; done|right].
  split; [done|].
  destruct (session_get url) as [|page]; simpl.
  - repeat split; try done. exists []. rewrite app_nil_r. split; [done|].
    intros u Hu. by apply elem_of_nil in Hu.
  - destruct (anchors page) as [hrefs|]; simpl.
    + repeat split; try done. eexists; split; [done|].
      intros u Hu. unfold _extract_links in Hu.
      apply list_elem_of_In, filter_In in Hu as [_ Hu].
      apply andb_true_iff in Hu as [Ha Hv]. split; [done|].
      apply negb_true_iff, bool_decide_eq_false in Hv. done.
    + repeat split; try done. exists []. rewrite app_nil_r. split; [done|].
      intros u Hu. by apply elem_of_nil in Hu.
Qed.

Lemma body_preserves_inv s :
  cond s = true → inv s → inv (body s).
Proof.
  intros (url & rest & Hq & Hlt)%cond_true_inv (Hsz & Hnd & Hreq).
  destruct (body_cases s url rest Hq) as [[Hin ->]|(Hnin & Hv & Hr & _)].
  - done.
  - unfold frontier_inv. rewrite Hv, Hr. split; [|split].
    + rewrite size_visit by done. lia.
    + apply NoDup_app. split; [done|]. split; [|apply NoDup_singleton].
      intros u Hu ->%list_elem_of_singleton. by apply Hnin, Hreq.
    + intros u. rewrite elem_of_app, list_elem_of_singleton, elem_of_union,
        elem_of_singleton, Hreq. tauto.
Qed.

Lemma iter_preserves_inv n s : inv s → inv (iter n s).
Proof.
  revert s. induction n as [|n IH]; intros s Hs; simpl; [done|].
  destruct (cond s) eqn:Hc; [|done]. by apply IH, body_preserves_inv.
Qed.

(** The loop terminates: the distance of the visited set to the budget
    and the length of the queue decrease lexicographically. *)
Lemma run_terminates s : ∃ fuel s', run fuel s = Some s'.
Proof.
  remember (Z.to_nat (budget - Z.of_nat (size (visited_urls s)))) as k eqn:Hk.
  revert s Hk. induction k as [k IHk] using lt_wf_ind. intros s Hk.
  remember (length (urls_to_visit s)) as q eqn:Hq.
  revert s Hk Hq. induction q as [q IHq] using lt_wf_ind. intros s Hk Hq.
  destruct (cond s) eqn:Hc.
  - destruct (cond_true_inv s Hc) as (url & rest & Hqe & Hlt).
    assert (∃ fuel s', run fuel (body s) = Some s') as (fuel & s' & Hrun).
    { destruct (body_cases s url rest Hqe) as [[Hin Hb]|(Hnin & Hv & _)].
      - apply (IHq (length rest)).
        + rewrite Hq, Hqe. simpl. lia.
        + rewrite Hb. simpl. done.
        + rewrite Hb. done.
      - eapply (IHk _ _ (body s) eq_refl).
        Unshelve. rewrite Hk, Hv, size_visit by done. lia. }
    exists (S fuel), s'. simpl. by rewrite Hc.
  - exists O, s. simpl. by rewrite Hc.
Qed.

Lemma run_iter fuel s s' :
  run fuel s = Some s' → s' = iter fuel s ∧ cond s' = false.
Proof.
  revert s. induction fuel as [|fuel IH]; intros s; simpl;
    destruct (cond s) eqn:Hc; try done.
  - intros [= <-]. done.
  - apply IH.
  - intros [= <-]. done.
Qed.

Lemma run_more_fuel (fuel fuel' : nat) s s' :
  run fuel s = Some s' → (fuel ≤ fuel')%nat → run fuel' s = Some s'.
Proof.
  revert fuel' s. induction fuel as [|fuel IH]; intros fuel' s; simpl;
    destruct (cond s) eqn:Hc; try done.
  - intros [= <-] _. destruct fuel'; simpl; by rewrite Hc.
  - intros Hr Hle. destruct fuel' as [|fuel']; [lia|]. simpl. rewrite Hc.
    apply IH; [done|lia].
  - intros [= <-] _. destruct fuel'; simpl; by rewrite Hc.
Qed.

Lemma body_preserves_allowed s :
  cond s = true → all_allowed s → all_allowed (body s).
Proof.
  intros (url & rest & Hq & _)%cond_true_inv [Hqa Hra].
  assert (allowed url = true) as Hurl by (apply Hqa; rewrite Hq; left).
  assert (∀ u, u ∈ rest → allowed u = true) as Hrest
    by (intros u Hu; apply Hqa; rewrite Hq; by right).
  destruct (body_cases s url rest Hq)
    as [[Hin ->]|(Hnin & Hv & Hr & new & Hn & Hnew)].
  - split; simpl; done.
  - split.
    + intros u. rewrite Hn, elem_of_app. intros [Hu|Hu]; [by apply Hrest|].
      by apply Hnew.
    + intros u. rewrite Hr, elem_of_app, list_elem_of_singleton.
      intros [Hu| ->]; [by apply Hra|done].
Qed.

Lemma iter_preserves_allowed n s : all_allowed s → all_allowed (iter n s).
Proof.
  revert s. induction n as [|n IH]; intros s Hs; simpl; [done|].
  destruct (cond s) eqn:Hc; [|done]. by apply IH, body_preserves_allowed.
Qed.
End CrawlFacts.

(** What [scrape] collects: every key of [content_map] was requested. *)
Lemma dict_set_keys {V} (k : string) (v : V) (d : list (string * V)) (u : string) :
  u ∈ Py.keys (Py.dict_set k v d) → u = k ∨ u ∈ Py.keys d.
Proof.
  unfold Py.keys. induction d as [|[k' v'] d IH]; simpl.
  - intros ->%list_elem_of_singleton. by left.
  - destruct (decide (k = k')) as [->|Hne]; simpl.
    + rewrite !elem_of_cons. tauto.
    + rewrite !elem_of_cons. intros [->|Hu]; [tauto|].
      destruct (IH Hu); tauto.
Qed.

Section ScrapeFacts.
Variable urlparse : string -> ParseResult.
Variable session_get : string -> response.
Variable config : ScraperConfig.
Variable disallowed_paths : list string.
Variable content_path : string -> string.

Abbreviation sbody :=
  (loop_body urlparse session_get config disallowed_paths (scrape_on_page content_path)).

Lemma scrape_body_keys (s : crawl_state (list (string * string))) :
  (∀ u, u ∈ Py.keys (collected s) → u ∈ requests s) →
  ∀ u, u ∈ Py.keys (collected (sbody s)) → u ∈ requests (sbody s).
Proof.
  intros Hk u. unfold loop_body.
  destruct (urls_to_visit s) as [|url rest]; [apply Hk|].
  destruct (decide (url ∈ visited_urls s)); [apply Hk|].
  destruct (session_get url) as [|page]; simpl.
  - intros Hu. apply elem_of_app. left. by apply Hk.
  - assert (u ∈ Py.keys (scrape_on_page content_path url page (collected s))
            → u ∈ requests s ++ [url]) as Hgoal.
    { intros [->|Hu]%dict_set_keys; apply elem_of_app.
      - right. by apply list_elem_of_singleton.
      - left. by apply Hk. }
    destruct (anchors page); simpl; apply Hgoal.
Qed.

Lemma scrape_iter_keys n (s : crawl_state (list (string * string))) :
  (∀ u, u ∈ Py.keys (collected s) → u ∈ requests s) →
  ∀ u, u ∈ Py.keys (collected
         (loop_iter urlparse session_get config disallowed_paths
            (scrape_on_page content_path) (max_pages config) n s)) →
       u ∈ requests
         (loop_iter urlparse session_get config disallowed_paths
            (scrape_on_page content_path) (max_pages config) n s).
Proof.
  revert s. induction n as [|n IH]; intros s Hs; simpl; [done|].
  destruct (loop_cond (max_pages config) s); [|done].
  by apply IH, scrape_body_keys.
Qed.

(** With start URLs that the policy allows, [scrape] requests allowed URLs
    only, and its content map holds requested URLs only. *)
Lemma scrape_respects_policy fuel content_map :
  (∀ u, u ∈ start_urls config → _is_allowed urlparse config disallowed_paths u = true) →
  scrape urlparse session_get config disallowed_paths content_path fuel
    = Some content_map →
  ∀ u, u ∈ Py.keys content_map →
       _is_allowed urlparse config disallowed_paths u = true.
Proof.
  unfold scrape. intros Hstart Hrun u Hu.
  destruct (loop_run _ _ _ _ _ _ fuel _) as [s'|] eqn:Hr; [|done].
  injection Hrun as <-. apply run_iter in Hr as [-> _].
  apply scrape_iter_keys in Hu; [|by intros ? ?%elem_of_nil].
  pose proof (iter_preserves_allowed urlparse session_get config
    disallowed_paths (scrape_on_page content_path) (max_pages config) fuel
    (fresh config [])) as [_ Hreq].
  { split; simpl; [done|]. by intros ? ?%elem_of_nil. }
  by apply Hreq.
Qed.
End ScrapeFacts.

(** ** The claims on the crawl loop *)

(** C1 (the code departs from the claim).  The claim: every URL put on the
    pending queue, the start URLs included, satisfies the politeness policy
    and the allowed-domain set, so that a URL under a disallowed prefix is
    never fetched and never a key of the content map.  The code: [scrape]
    copies [config.start_urls] into the queue without calling [_is_allowed],
    the check that [_extract_links] applies to every other URL.  With the
    configuration that [load_config] builds for [example.com] and a
    robots.txt that disallows [/], [_is_allowed] rejects the start URL
    [https://example.com], and [scrape] requests it and returns it as a key
    of the content map.  With the rule [Disallow: /private] and the start URL
    [https://example.com/private/report], a URL under the disallowed prefix
    is requested and stored in the same way. *)
Theorem scrape_fetches_disallowed_start_url :
  let closed := init_disallowed_paths Site.config (Some Site.robots_txt_closed) in
  let disallowed_paths :=
    init_disallowed_paths Site.config_report (Some Site.robots_txt) in
  (closed = ["/"]
   ∧ start_urls Site.config = [Site.home]
   ∧ _is_allowed urlparse_simple Site.config closed Site.home = false
   ∧ requests
       (loop_iter urlparse_simple Site.session_get Site.config closed
          (scrape_on_page Site.content_path) (max_pages Site.config) 1
          (fresh Site.config []))
     = [Site.home]
   ∧ scrape urlparse_simple Site.session_get Site.config closed
       Site.content_path 1
     = Some [(Site.home, Site.content_path Site.home)])
  ∧ (disallowed_paths = ["/private"]
     ∧ path (urlparse_simple Site.report) = "/private/report"
     ∧ _is_allowed urlparse_simple Site.config_report disallowed_paths Site.report
       = false
     ∧ requests
         (loop_iter urlparse_simple Site.session_get Site.config_report
            disallowed_paths (scrape_on_page Site.content_path)
            (max_pages Site.config_report) 1 (fresh Site.config_report []))
       = [Site.report]
     ∧ scrape urlparse_simple Site.session_get Site.config_report
         disallowed_paths Site.content_path 1
       = Some [(Site.report, Site.content_path Site.report)]).
Proof. vm_compute. repeat split. Qed.

(** C4 (the code departs from the claim).  The claim: with [max_depth] set,
    a URL discovered at a link depth beyond it is never enqueued.  The code:
    neither crawl loop reads [max_depth], although the field is described as
    the maximum depth to crawl.  With [max_depth = 1] on the site
    [home -> page_b -> page_c], [page_c] is two links from the start URL and
    not nearer, and [scrape] enqueues, requests and stores it; the run is the
    one of the configuration without a depth limit. *)
Theorem scrape_ignores_max_depth :
  let config := with_max_depth (Some 1%Z) Site.config in
  start_urls config = [Site.home]
  ∧ (Site.page_c ∉ Site.within_depth (start_urls config) 1)
  ∧ Site.page_c ∈ Site.within_depth (start_urls config) 2
  ∧ Site.page_c ∈
      urls_to_visit
        (loop_iter urlparse_simple Site.session_get config []
           (scrape_on_page Site.content_path) (max_pages config) 2
           (fresh config []))
  ∧ scrape urlparse_simple Site.session_get config [] Site.content_path 4
    = Some [(Site.home, Site.content_path Site.home);
            (Site.page_b, Site.content_path Site.page_b);
            (Site.page_c, Site.content_path Site.page_c)]
  ∧ ∀ fuel,
      scrape urlparse_simple Site.session_get config [] Site.content_path fuel
      = scrape urlparse_simple Site.session_get Site.config [] Site.content_path fuel.
Proof.
  cbv zeta. split; [reflexivity|]. split; [|split; [|split; [|split]]].
  - apply (bool_decide_unpack _). vm_compute. exact I.
  - apply (bool_decide_unpack _). vm_compute. exact I.
  - apply (bool_decide_unpack _). vm_compute. exact I.
  - vm_compute. reflexivity.
  - intros fuel. reflexivity.
Qed.

(** C7.  Throughout a crawl pass of a fresh scraper, in the loop of [scrape]
    and in the loop of [discover_pages] alike, the visited set never holds
    more URLs than the page budget, no URL is requested twice, and the
    requested URLs are exactly the visited ones; the pass ends, in a state
    with the same properties.  The budget is a count: it is taken to be
    non-negative. *)
Theorem visited_within_budget_no_repeat
    (urlparse : string -> ParseResult) (session_get : string -> response)
    (config : ScraperConfig) (disallowed_paths : list string)
    (content_path : string -> string) (discover_budget : Z) :
  (0 <= max_pages config)%Z →
  (0 <= discover_budget)%Z →
  (∀ n,
     let s := scrape_iter urlparse session_get config disallowed_paths
                content_path n in
     (Z.of_nat (size (visited_urls s)) <= max_pages config)%Z
     ∧ NoDup (requests s)
     ∧ ∀ u, u ∈ requests s ↔ u ∈ visited_urls s)
  ∧ (∀ n,
       let s := discover_iter urlparse session_get config disallowed_paths
                  discover_budget n in
       (Z.of_nat (size (visited_urls s)) <= discover_budget)%Z
       ∧ NoDup (requests s)
       ∧ ∀ u, u ∈ requests s ↔ u ∈ visited_urls s)
  ∧ (∃ fuel, scrape urlparse session_get config disallowed_paths
               content_path fuel
             = Some (collected (scrape_iter urlparse session_get config
                                  disallowed_paths content_path fuel)))
  ∧ (∃ fuel, discover_pages urlparse session_get config disallowed_paths
               discover_budget fuel
             = Some (collected (discover_iter urlparse session_get config
                                  disallowed_paths discover_budget fuel))).
Proof.
  intros Hb Hd.
  assert (∀ R (e : R) b, (0 <= b)%Z → frontier_inv b (fresh config e)) as Hfresh.
  { intros R e b Hb0. split; [|split].
    - unfold fresh; cbn [visited_urls]. rewrite size_empty. lia.
    - apply NoDup_nil_2.
    - unfold fresh; cbn [visited_urls requests]. intros u. split; [by intros ?%elem_of_nil | by intros ?%elem_of_empty]. }
  split; [|split; [|split]].
  - intros n. apply iter_preserves_inv, Hfresh, Hb.
  - intros n. apply iter_preserves_inv, Hfresh, Hd.
  - destruct (run_terminates urlparse session_get config disallowed_paths
                (scrape_on_page content_path) (max_pages config)
                (fresh config [])) as (fuel & s' & Hrun).
    exists fuel. unfold scrape. rewrite Hrun. simpl.
    apply run_iter in Hrun as [-> _]. done.
  - destruct (run_terminates urlparse session_get config disallowed_paths
                discover_on_page discover_budget
                (fresh config [])) as (fuel & s' & Hrun).
    exists fuel. unfold discover_pages. rewrite Hrun. simpl.
    apply run_iter in Hrun as [-> _]. done.
Qed.

Lemma visited_within_budget_no_repeat_witness :
  let s := scrape_iter urlparse_simple Site.session_get Site.config []
             Site.content_path 2 in
  (Z.of_nat (size (visited_urls s)) <= max_pages Site.config)%Z
  ∧ NoDup (requests s).
Proof.
  destruct (visited_within_budget_no_repeat urlparse_simple Site.session_get
              Site.config [] Site.content_path 5%Z) as [Hs _].
  - vm_compute. discriminate.
  - lia.
  - destruct (Hs 2%nat) as (H1 & H2 & _). split; [exact H1 | exact H2].
Defined.

(** ** Properties of the selection *)

Lemma select_reenters discovered_pages a script :
  reenters a = true →
  select_pages_interactive discovered_pages (a :: script)
  = select_pages_interactive discovered_pages script.
Proof.
  unfold reenters. simpl.
  destruct (choice a =? 1)%Z eqn:H1, (choice a =? 2)%Z eqn:H2,
    (choice a =? 3)%Z eqn:H3, (choice a =? 4)%Z eqn:H4, (confirm a); simpl;
    try done;
    repeat match goal with H : (_ =? _)%Z = true |- _ => apply Z.eqb_eq in H end;
    lia.
Qed.

Lemma select_skips discovered_pages skipped script :
  Forall (fun a => reenters a = true) skipped →
  select_pages_interactive discovered_pages (skipped ++ script)
  = select_pages_interactive discovered_pages script.
Proof.
  induction 1 as [|a skipped Ha _ IH]; [done|].
  change ((a :: skipped) ++ script) with (a :: (skipped ++ script)).
  by rewrite select_reenters.
Qed.

Lemma select_nothing discovered_pages a script :
  selects_nothing discovered_pages a = true →
  select_pages_interactive discovered_pages (a :: script) = Selected [].
Proof.
  unfold selects_nothing. simpl.
  destruct (choice a =? 1)%Z eqn:H1, (choice a =? 2)%Z eqn:H2,
    (choice a =? 3)%Z eqn:H3, (choice a =? 4)%Z eqn:H4, (confirm a); simpl;
    try done;
    repeat match goal with H : (_ =? _)%Z = true |- _ => apply Z.eqb_eq in H end;
    try lia.
  all: by intros ->%bool_decide_eq_true.
Qed.

Lemma pick_Some urls idx u :
  pick urls idx = Some u
  ↔ (1 <= idx <= Z.of_nat (length urls))%Z ∧ urls !! Z.to_nat (idx - 1) = Some u.
Proof.
  unfold pick.
  destruct (1 <=? idx)%Z eqn:H1, (idx <=? Z.of_nat (length urls))%Z eqn:H2; simpl;
    rewrite ?Z.leb_le, ?Z.leb_gt in *; split; try done; try tauto;
    intros [? ?]; lia.
Qed.

(** The set that the parsing loop builds holds what it started from and
    the indices of every entry. *)
Lemma parse_indices_elem parts : ∀ (S0 S : gset Z),
  parse_indices parts S0 = Some S →
  ∀ idx, idx ∈ S ↔
    idx ∈ S0 ∨ ∃ part new, part ∈ parts ∧ parse_part part = Some new ∧ idx ∈ new.
Proof.
  induction parts as [|part parts IH]; intros S0 S; simpl.
  - intros [= <-] idx. split; [tauto|].
    intros [?|(? & ? & []%elem_of_nil & _)]. done.
  - destruct (parse_part part) as [new|] eqn:Hp; [|done].
    intros HS idx. rewrite (IH _ _ HS idx), elem_of_union, elem_of_list_to_set.
    split.
    + intros [[Hn|H0]|(p & n & Hin & Hpp & Hidx)].
      * right. exists part, new. split; [left|done].
      * by left.
      * right. exists p, n. split; [by right|done].
    + intros [H0|(p & n & Hin & Hpp & Hidx)]; [tauto|].
      apply elem_of_cons in Hin as [->|Hin].
      * left. left. congruence.
      * right. eauto.
Qed.

Lemma parse_indices_None parts part (S0 : gset Z) :
  part ∈ parts → parse_part part = None → parse_indices parts S0 = None.
Proof.
  revert S0. induction parts as [|p parts IH]; intros S0 Hin Hp.
  - by apply elem_of_nil in Hin.
  - simpl. apply elem_of_cons in Hin as [<-|Hin].
    + by rewrite Hp.
    + destruct (parse_part p); [by apply IH|done].
Qed.

Lemma ill_formed_token_raises part :
  well_formed_token part = false → parse_part part = None.
Proof.
  unfold well_formed_token, parse_part.
  intros [Hint Hrange]%orb_false_iff.
  apply bool_decide_eq_false in Hint.
  destruct (Py.contains part "-").
  - destruct (Py.split "-" part) as [|a [|b [|c l]]]; try done.
    apply andb_false_iff in Hrange as [Ha|Hb].
    + apply bool_decide_eq_false in Ha.
      destruct (Py_int.int a); [exfalso; eauto|done].
    + apply bool_decide_eq_false in Hb.
      destruct (Py_int.int a), (Py_int.int b); try done. exfalso; eauto.
  - destruct (Py_int.int part); [exfalso; eauto|done].
Qed.

(** ** The claims on the selection *)

(** C8.  Over eight discovered pages [p1 .. p8], in discovery order, choice 2
    with the input [1,3,5-7] selects exactly the pages [p1], [p3], [p5],
    [p6] and [p7], in the order in which the index set is iterated; the input
    [0,2,9,7-12] selects [p2], [p7] and [p8], the indices outside [1 .. 8]
    being dropped without an error.  In general, once the comma-separated
    entries parse to the index set [S], the selection holds the page at
    position [idx] (counted from 1) for every [idx] of [S] between 1 and the
    number of pages, and nothing else. *)
Theorem select_by_index_spec (p1 p2 p3 p4 p5 p6 p7 p8 : string)
    (i1 i2 i3 i4 i5 i6 i7 i8 : PageInfo) (c : bool) (script : list answers) :
  let discovered_pages :=
    [(p1, i1); (p2, i2); (p3, i3); (p4, i4); (p5, i5); (p6, i6); (p7, i7); (p8, i8)] in
  (∃ selected_urls,
     select_pages_interactive discovered_pages
       ({| choice := 2; text := "1,3,5-7"; confirm := c |} :: script)
     = Selected selected_urls
     ∧ selected_urls ≡ₚ [p1; p3; p5; p6; p7])
  ∧ (∃ selected_urls,
       select_pages_interactive discovered_pages
         ({| choice := 2; text := "0,2,9,7-12"; confirm := c |} :: script)
       = Selected selected_urls
       ∧ selected_urls ≡ₚ [p2; p7; p8])
  ∧ ∀ (indices_str : string) (urls : list string) (S : gset Z),
      parse_indices (Py.split "," indices_str) ∅ = Some S →
      ∃ selected_urls,
        select_by_index indices_str urls = Some selected_urls
        ∧ ∀ u, u ∈ selected_urls ↔
               ∃ idx, idx ∈ S ∧ (1 <= idx <= Z.of_nat (length urls))%Z
                      ∧ urls !! Z.to_nat (idx - 1) = Some u.
Proof.
  cbv zeta. split; [|split].
  - eexists. split; [vm_compute; reflexivity|]. solve_Permutation.
  - eexists. split; [vm_compute; reflexivity|]. solve_Permutation.
  - intros indices_str urls S HS. unfold select_by_index. rewrite HS.
    eexists. split; [reflexivity|]. intros u.
    rewrite list_elem_of_omap. split.
    + intros (idx & Hidx%elem_of_elements & Hp%pick_Some). exists idx. tauto.
    + intros (idx & Hidx & Hr & Hl). exists idx.
      split; [by apply elem_of_elements|]. by apply pick_Some.
Qed.

Lemma select_by_index_spec_witness :
  ∃ selected_urls,
    select_by_index "2,4-5,40" ["a"; "b"; "c"; "d"; "e"; "f"] = Some selected_urls
    ∧ ("d" ∈ selected_urls ↔
       ∃ idx, idx ∈ ({[2%Z; 4%Z; 5%Z; 40%Z]} : gset Z)
              ∧ (1 <= idx <= Z.of_nat (length ["a"; "b"; "c"; "d"; "e"; "f"]))%Z
              ∧ ["a"; "b"; "c"; "d"; "e"; "f"] !! Z.to_nat (idx - 1) = Some "d").
Proof.
  destruct (select_by_index_spec "" "" "" "" "" "" "" ""
              (_extract_page_info "" (Site.plain []))
              (_extract_page_info "" (Site.plain []))
              (_extract_page_info "" (Site.plain []))
              (_extract_page_info "" (Site.plain []))
              (_extract_page_info "" (Site.plain []))
              (_extract_page_info "" (Site.plain []))
              (_extract_page_info "" (Site.plain []))
              (_extract_page_info "" (Site.plain [])) true [])
    as (_ & _ & Hgen).
  destruct (Hgen "2,4-5,40" ["a"; "b"; "c"; "d"; "e"; "f"]
              ({[2%Z; 4%Z; 5%Z; 40%Z]} : gset Z)) as (l & Hl & Hiff).
  - vm_compute. reflexivity.
  - exists l. split; [exact Hl | exact (Hiff "d")].
Defined.

(** C10.  Under choice 2, an input with an entry that is neither an integer
    nor two integers around one hyphen makes [select_pages_interactive] raise
    [ValueError], whatever the other entries, the pages and the rest of the
    operator's answers are: the entries [a], [5-] and [1..3] are of that
    kind.  This differs from an index out of range, which is dropped (the
    input [99] over the three pages of the example site selects nothing and
    raises nothing), and from an invalid menu choice, after which the method
    asks again. *)
Theorem malformed_index_raises (discovered_pages : list (string * PageInfo))
    (indices_str part : string) (c : bool) (script : list answers) :
  part ∈ Py.split "," indices_str →
  well_formed_token part = false →
  select_pages_interactive discovered_pages
    ({| choice := 2; text := indices_str; confirm := c |} :: script)
  = ValueError
  ∧ well_formed_token "a" = false
  ∧ well_formed_token "5-" = false
  ∧ well_formed_token "1..3" = false
  ∧ select_pages_interactive Site.discovered
      ({| choice := 2; text := "99"; confirm := c |} :: script)
    = Selected []
  ∧ select_pages_interactive discovered_pages
      ({| choice := 7; text := indices_str; confirm := c |} :: script)
    = select_pages_interactive discovered_pages script.
Proof.
  intros Hin Hbad. split; [|repeat split].
  simpl. unfold select_by_index.
  by rewrite (parse_indices_None _ part ∅ Hin (ill_formed_token_raises _ Hbad)).
Qed.

Lemma malformed_index_raises_witness :
  select_pages_interactive Site.discovered
    ({| choice := 2; text := "1,5-,2"; confirm := false |}
       :: [{| choice := 1; text := ""; confirm := false |}])
  = ValueError.
Proof.
  refine (proj1 (malformed_index_raises _ "1,5-,2" "5-" false _ _ _)).
  - apply (bool_decide_unpack _). vm_compute. exact I.
  - vm_compute. reflexivity.
Defined.

(** C9.  In interactive mode the discovery pass ends, with some table of
    discovered pages.  When the operator's answers, after any number of
    calls that only ask again (an invalid choice, a declined keyword
    confirmation), reach a call with choice 4, or a call with a confirmed
    keyword filter that no discovered page matches, [interactive_scrape]
    returns the empty content map and [main] ends with status 0 without
    starting the processing, embedding or storage stage. *)
Theorem empty_selection_stops_pipeline
    (urlparse : string -> ParseResult) (session_get : string -> response)
    (config : ScraperConfig) (disallowed_paths : list string)
    (content_path : string -> string) {P E : Type}
    (process_content : list (string * string) -> P)
    (generate_embeddings : P -> option E) (save : E -> option unit) :
  (∃ fuel discovered_pages,
     discover_pages urlparse session_get config disallowed_paths
       (max_pages config) fuel = Some discovered_pages)
  ∧ ∀ (fuel : nat) (discovered_pages : list (string * PageInfo))
      (skipped : list answers) (a : answers) (script : list answers),
      discover_pages urlparse session_get config disallowed_paths
        (max_pages config) fuel = Some discovered_pages →
      Forall (fun x => reenters x = true) skipped →
      selects_nothing discovered_pages a = true →
      interactive_scrape urlparse session_get config disallowed_paths
        content_path fuel (skipped ++ a :: script) = Some (Returned [])
      ∧ main urlparse session_get config disallowed_paths content_path
          process_content generate_embeddings save true fuel
          (skipped ++ a :: script)
        = Some {| scraped := []; stages := []; exit_status := 0 |}.
Proof.
  split.
  - destruct (run_terminates urlparse session_get config disallowed_paths
                discover_on_page (max_pages config) (fresh config []))
      as (fuel & s' & Hrun).
    exists fuel, (collected s'). unfold discover_pages. by rewrite Hrun.
  - intros fuel discovered_pages skipped a script Hd Hskip Hnone.
    assert (interactive_scrape urlparse session_get config disallowed_paths
              content_path fuel (skipped ++ a :: script) = Some (Returned []))
      as Hint.
    { unfold interactive_scrape. rewrite Hd.
      by rewrite select_skips, select_nothing. }
    split; [done|]. unfold main. by rewrite Hint.
Qed.

Lemma empty_selection_stops_pipeline_witness :
  main urlparse_simple Site.session_get Site.config [] Site.content_path
    (fun content_map => length content_map)
    (fun n => Some n) (fun _ => Some tt) true 4
    ([{| choice := 9; text := ""; confirm := false |};
      {| choice := 3; text := "example"; confirm := false |}]
       ++ {| choice := 3; text := "Pricing"; confirm := true |} :: [])
  = Some {| scraped := []; stages := []; exit_status := 0 |}.
Proof.
  refine (proj2 (proj2 (empty_selection_stops_pipeline urlparse_simple
            Site.session_get Site.config [] Site.content_path
            (fun content_map : list (string * string) => length content_map)
            (fun n : nat => Some n) (fun _ : nat => Some tt))
          4%nat Site.discovered _ _ _ _ _ _)).
  - vm_compute. reflexivity.
  - repeat constructor.
  - vm_compute. reflexivity.
Defined.

(** ** Lines after normalisation *)

Lemma has_char_rev_app c s1 s2 :
  has_char c (String.rev_app s1 s2) = has_char c s1 || has_char c s2.
Proof.
  revert s2. induction s1 as [|a s1 IH]; intros s2; simpl; [done|].
  rewrite IH. simpl. destruct (Ascii.eqb a c), (has_char c s1); done.
Qed.

Lemma has_char_rev c s : has_char c (String.rev s) = has_char c s.
Proof. unfold String.rev. rewrite has_char_rev_app. simpl. apply orb_false_r. Qed.

Lemma has_char_lstrip c s : has_char c s = false → has_char c (Py.lstrip s) = false.
Proof.
  induction s as [|a s IH]; simpl; [done|].
  intros [Ha Hs]%orb_false_iff. destruct (Py.isspace a); [by apply IH|].
  simpl. by rewrite Ha, Hs.
Qed.

Lemma has_char_strip c s : has_char c s = false → has_char c (Py.strip s) = false.
Proof.
  intros Hs. unfold Py.strip, Py.rstrip.
  rewrite has_char_rev. apply has_char_lstrip. rewrite has_char_rev.
  by apply has_char_lstrip.
Qed.

Lemma collapse_whitespace_no_newline b text :
  has_char newline (collapse_whitespace b text) = false.
Proof.
  revert b. induction text as [|c text IH]; intros b; simpl; [done|].
  destruct (Py.isspace c) eqn:Hc.
  - destruct b; simpl; apply IH.
  - simpl. rewrite IH. destruct (Ascii.eqb c newline) eqn:Heq; [|done].
    apply Ascii.eqb_eq in Heq. subst c. discriminate Hc.
Qed.

Lemma split_no_sep sep s cur :
  has_char sep s = false → Py.split_go sep cur s = [String.rev_app cur s].
Proof.
  revert cur. induction s as [|c s IH]; intros cur; simpl; [done|].
  intros [Hc Hs]%orb_false_iff. rewrite Hc. by rewrite IH.
Qed.

(** The line filter sees one line: [_clean_text] returns the whole
    normalised text or the empty string. *)
Lemma clean_text_all_or_nothing redact_emails config text :
  _clean_text redact_emails config text
  = if long_enough config (normalized redact_emails config text)
    then normalized redact_emails config text
    else "".
Proof.
  unfold _clean_text, Py.split.
  rewrite split_no_sep
    by apply has_char_strip, collapse_whitespace_no_newline.
  simpl. by destruct (long_enough _ _).
Qed.

(** ** The claim on text cleaning *)

(** C6 (the code departs from the claim).  The claim: cleaning collapses
    whitespace runs to single spaces and drops each line shorter than the
    minimum length while it keeps every longer line.  The code collapses
    line breaks along with the other whitespace before it splits the text
    into lines, so the filter commented as removing very short lines sees
    one line, the whole text.  With the default configuration (minimum
    length 50, e-mail redaction on, which leaves a text without [@] as it
    is), the lines [Home] and [About us], of 4 and 8 characters, in front of
    a long line all stay in the output; two lines of 30 characters, each
    under the minimum, stay as well, joined by a space; for every text and
    configuration the result is the whole normalised text or the empty
    string. *)
Theorem clean_text_keeps_short_lines (redact_emails : string -> string) :
  (∀ text, has_char "@" text = false → redact_emails text = text) →
  map String.length (Py.split newline Text.with_nav) = [4; 8; 76]%nat
  ∧ _clean_text redact_emails default_processor_config Text.with_nav
    = "Home About us This paragraph is the one long line of the page, well over fifty characters."
  ∧ map String.length (Py.split newline Text.two_short_lines) = [30; 30]%nat
  ∧ _clean_text redact_emails default_processor_config Text.two_short_lines
    = "first line of thirty chars ... second line of thirty chars .."
  ∧ ∀ (any : ProcessorConfig) (text : string),
      _clean_text redact_emails any text = normalized redact_emails any text
      ∨ _clean_text redact_emails any text = "".
Proof.
  intros Hplain. split; [reflexivity|]. split; [|split; [reflexivity|split]].
  - unfold _clean_text, normalized. cbn [remove_emails default_processor_config].
    rewrite Hplain by reflexivity. vm_compute. reflexivity.
  - unfold _clean_text, normalized. cbn [remove_emails default_processor_config].
    rewrite Hplain by reflexivity. vm_compute. reflexivity.
  - intros any text. rewrite clean_text_all_or_nothing.
    destruct (long_enough _ _); [by left|by right].
Qed.

Lemma clean_text_keeps_short_lines_witness :
  _clean_text (fun text => text) default_processor_config Text.with_nav
  = "Home About us This paragraph is the one long line of the page, well over fifty characters.".
Proof.
  refine (proj1 (proj2 (clean_text_keeps_short_lines (fun text => text) _))).
  intros text _. reflexivity.
Defined.

(** ** Properties of the embedder *)

Lemma dict_set_fresh {V} (k : string) (v : V) (d : list (string * V)) :
  k ∉ Py.keys d → Py.dict_set k v d = d ++ [(k, v)].
Proof.
  unfold Py.keys. induction d as [|[k' v'] d IH]; simpl; [done|].
  intros Hk. rewrite not_elem_of_cons in Hk. destruct Hk as [Hne Hk].
  destruct (decide (k = k')); [done|]. by rewrite IH.
Qed.

Lemma dict_get_app_fresh {V} (k : string) (v : V) (d d' : list (string * V)) :
  k ∉ Py.keys d → Py.dict_get k (d ++ (k, v) :: d') = Some v.
Proof.
  unfold Py.keys. induction d as [|[k' v'] d IH]; simpl.
  - intros _. by destruct (decide (k = k)).
  - intros Hk. rewrite not_elem_of_cons in Hk. destruct Hk as [Hne Hk].
    destruct (decide (k = k')); [done|]. by apply IH.
Qed.

Lemma keys_app {V} (d d' : list (string * V)) :
  Py.keys (d ++ d') = Py.keys d ++ Py.keys d'.
Proof. unfold Py.keys. apply map_app. Qed.

Lemma collect_chunks_spec processed_content :
  ∀ all_chunks idx,
    NoDup (Py.keys processed_content) →
    (∀ u, u ∈ Py.keys processed_content → u ∉ Py.keys idx) →
    collect_chunks processed_content all_chunks idx
    = (all_chunks ++ all_chunks_of processed_content,
       idx ++ ranges (length all_chunks) processed_content).
Proof.
  induction processed_content as [|[url [chunks md]] rest IH];
    intros all_chunks idx Hnd Hfresh; simpl.
  - by rewrite !app_nil_r.
  - apply NoDup_cons in Hnd as [Hurl Hnd].
    rewrite dict_set_fresh by (apply Hfresh; left).
    rewrite IH; [|done|].
    + rewrite length_app, <- !app_assoc. done.
    + intros u Hu. rewrite keys_app, elem_of_app.
      intros [Hin|Hin%list_elem_of_singleton].
      * apply (Hfresh u); [by right|done].
      * simpl in Hin. subst u. done.
Qed.

Section EmbedderFacts.
Context {vec : Type}.
Variable config : EmbeddingConfig.
Variable encode : list string -> list vec.
(** The embedding of one chunk: row [i] of [encode batch] is the embedding
    of the [i]-th string of the batch. *)
Variable embed_one : string -> vec.
Hypothesis encode_rows : ∀ batch, encode batch = map embed_one batch.
Hypothesis batch_size_pos : (0 < batch_size config)%Z.

(** The first [n] batches embed the first [n * batch_size] chunks, in
    order. *)
Lemma batches_prefix (all_chunks : list string) (n : nat) :
  flat_map
    (fun i => encode (Py.slice (Z.to_nat i) (Z.to_nat (i + batch_size config))
                        all_chunks))
    (map (fun k => (Z.of_nat k * batch_size config)%Z) (seq 0 n))
  = map embed_one (take (n * Z.to_nat (batch_size config)) all_chunks).
Proof.
  induction n as [|n IH].
  - done.
  - rewrite seq_S, map_app, flat_map_app, IH. simpl. rewrite app_nil_r.
    rewrite encode_rows, <- map_app. f_equal.
    unfold Py.slice.
    replace (Z.to_nat (Z.of_nat n * batch_size config))
      with (n * Z.to_nat (batch_size config))%nat by lia.
    replace (Z.to_nat (Z.of_nat n * batch_size config + batch_size config)
             - n * Z.to_nat (batch_size config))%nat
      with (Z.to_nat (batch_size config)) by lia.
    rewrite take_take_drop. f_equal. lia.
Qed.

Lemma encode_batches_spec (all_chunks : list string) :
  encode_batches config encode all_chunks = Some (map embed_one all_chunks).
Proof.
  unfold encode_batches, py_range.
  destruct (batch_size config =? 0)%Z eqn:H0; [apply Z.eqb_eq in H0; lia|].
  destruct (0 <? batch_size config)%Z eqn:Hp; [|apply Z.ltb_ge in Hp; lia].
  rewrite batches_prefix. f_equal. f_equal. apply take_ge.
  set (b := batch_size config) in *.
  set (n := Z.of_nat (length all_chunks)).
  assert (n <= (n + b - 1) / b * b)%Z.
  { pose proof (Z.div_mod (n + b - 1) b ltac:(lia)) as Hdm.
    pose proof (Z.mod_pos_bound (n + b - 1) b ltac:(lia)). lia. }
  assert (0 <= (n + b - 1) / b)%Z by (apply Z.div_pos; lia).
  lia.
Qed.

Lemma regroup_spec (all_chunks : list string) rest :
  ∀ (a : nat) idx results,
    NoDup (Py.keys rest) →
    (∀ u, u ∈ Py.keys rest → (u ∉ Py.keys idx) ∧ (u ∉ Py.keys results)) →
    drop a all_chunks = all_chunks_of rest →
    regroup rest (idx ++ ranges a rest) (map embed_one all_chunks) results
    = Some (results ++ map (embedded embed_one) rest).
Proof.
  induction rest as [|[url [chunks md]] rest IH];
    intros a idx results Hnd Hfresh Hdrop; simpl.
  - by rewrite app_nil_r.
  - apply NoDup_cons in Hnd as [Hurl Hnd].
    destruct (Hfresh url) as [Hidx Hres]; [left|].
    rewrite dict_get_app_fresh by done.
    rewrite (dict_set_fresh _ _ results) by done.
    change (idx ++ (url, (a, a + length chunks)) :: ranges (a + length chunks) rest)
      with (idx ++ [(url, (a, a + length chunks))] ++ ranges (a + length chunks) rest).
    rewrite app_assoc, IH; [| done | |].
    + rewrite <- app_assoc. simpl. do 3 f_equal. unfold embedded; simpl.
      unfold Py.slice. replace (a + length chunks - a)%nat with (length chunks) by lia.
      rewrite skipn_map, firstn_map, Hdrop. simpl.
      unfold all_chunks_of. simpl. by rewrite take_app_length.
    + intros u Hu. rewrite !keys_app, !elem_of_app. simpl.
      rewrite !list_elem_of_singleton.
      destruct (Hfresh u) as [? ?]; [by right|].
      assert (u ≠ url) by (intros ->; done). tauto.
    + rewrite <- drop_drop, Hdrop. unfold all_chunks_of. simpl.
      by rewrite drop_app_length.
Qed.

(** The method returns, for each URL in the order of the input, its chunks,
    the embedding of each chunk in the same order, and its metadata. *)
Lemma generate_embeddings_spec processed_content :
  NoDup (Py.keys processed_content) →
  generate_embeddings config encode processed_content
  = Some (map (embedded embed_one) processed_content).
Proof.
  intros Hnd. unfold generate_embeddings.
  rewrite collect_chunks_spec; [|done|by intros ? _ ?%elem_of_nil].
  simpl. rewrite encode_batches_spec.
  apply (regroup_spec _ processed_content 0 [] []); [done| |done].
  intros u _. split; by intros ?%elem_of_nil.
Qed.
End EmbedderFacts.

(** ** The claim on the embedder *)

(** The scenario of the specification: 257 chunks in batches of 32 take
    nine calls of the model. *)
Example nine_batches : length <$> py_range 257 32 = Some 9%nat.
Proof. reflexivity. Qed.

(** Without a positive batch size the method does not embed: a zero step
    makes [range] raise, a negative one makes the batch loop empty, so that
    every URL gets the empty embedding list. *)
Example degenerate_batch_size :
  let config b := {| model_name := "all-MiniLM-L6-v2"; device := "cpu";
                     batch_size := b; normalize_embeddings := true |} in
  generate_embeddings (config 0%Z) (map String.length)
    [("u", (["one"; "two"], []))] = None
  ∧ generate_embeddings (config (-1)%Z) (map String.length)
      [("u", (["one"; "two"], []))]
    = Some [("u", (["one"; "two"], [], []))].
Proof. split; reflexivity. Qed.

(** C2.  With a model whose [encode] returns one row per input string, row
    [i] being the embedding of string [i], and a positive batch size, the
    embedder returns for every processed-content map (a dictionary: its
    keys are distinct) one entry per URL, in the order of the input, with
    the URL's chunks and metadata unchanged and with an embedding list that
    has the length of the chunk list and holds, at each position, the
    embedding of the chunk at that position; the number of embeddings over
    all URLs is the number of chunks over all URLs. *)
Theorem embeddings_aligned_with_chunks {vec : Type} (config : EmbeddingConfig)
    (encode : list string -> list vec) (embed_one : string -> vec)
    (processed_content : list (string * (list string * Metadata))) :
  (∀ batch, encode batch = map embed_one batch) →
  (0 < batch_size config)%Z →
  NoDup (Py.keys processed_content) →
  ∃ results,
    generate_embeddings config encode processed_content = Some results
    ∧ Py.keys results = Py.keys processed_content
    ∧ Forall2
        (fun entry result =>
           fst result = fst entry
           ∧ fst (fst (snd result)) = fst (snd entry)
           ∧ snd (snd result) = snd (snd entry)
           ∧ length (snd (fst (snd result))) = length (fst (snd entry))
           ∧ snd (fst (snd result)) = map embed_one (fst (snd entry)))
        processed_content results
    ∧ length (flat_map (fun result => snd (fst (snd result))) results)
      = length (all_chunks_of processed_content).
Proof.
  intros Hrows Hpos Hnd. exists (map (embedded embed_one) processed_content).
  split; [by apply generate_embeddings_spec|].
  clear Hnd. split; [|split].
  - unfold Py.keys. rewrite map_map. done.
  - induction processed_content as [|entry rest IH]; simpl; constructor; [|done].
    unfold embedded; simpl. by rewrite length_map.
  - unfold all_chunks_of.
    induction processed_content as [|entry rest IH]; simpl; [done|].
    by rewrite !length_app, IH, length_map.
Qed.

Lemma embeddings_aligned_with_chunks_witness :
  ∃ results,
    generate_embeddings
      {| model_name := "all-MiniLM-L6-v2"; device := "cpu";
         batch_size := 2; normalize_embeddings := true |}
      (map String.length)
      [("https://example.com", (["alpha"; "be"; "gamma"], []));
       ("https://example.com/b", (["de"; "epsilon"], []))]
    = Some results
    ∧ Py.keys results = ["https://example.com"; "https://example.com/b"].
Proof.
  destruct (embeddings_aligned_with_chunks
              {| model_name := "all-MiniLM-L6-v2"; device := "cpu";
                 batch_size := 2; normalize_embeddings := true |}
              (map String.length) String.length
              [("https://example.com", (["alpha"; "be"; "gamma"], []));
               ("https://example.com/b", (["de"; "epsilon"], []))])
    as (results & Hgen & Hkeys & _).
  - reflexivity.
  - simpl. lia.
  - apply (bool_decide_unpack _). vm_compute. exact I.
  - exists results. split; [exact Hgen | exact Hkeys].
Defined.

(** ** Properties of the storage *)

Section StorageFacts.
Context {F : Type}.
Variable to_float32 : F -> F.
Variable config : StorageConfig.

Lemma flatten_url_chunks i chunks (embs : list (list F)) md :
  map (fun t => fst (fst t)) (flatten_url i chunks embs md)
  = take (min (length chunks) (length embs)) chunks.
Proof.
  revert i embs. induction chunks as [|chunk chunks IH]; intros i [|e embs];
    simpl; try done.
  by rewrite IH.
Qed.

Lemma flatten_url_embeddings i chunks (embs : list (list F)) md :
  map (fun t => snd (fst t)) (flatten_url i chunks embs md)
  = take (min (length chunks) (length embs)) embs.
Proof.
  revert i embs. induction chunks as [|chunk chunks IH]; intros i [|e embs];
    simpl; try done.
  by rewrite IH.
Qed.

(** The chunk list that [save] persists: per URL, as many chunks as there
    are chunk-embedding pairs. *)
Lemma all_chunks_zip (embeddings_data : list (string * (list string * list (list F) * Metadata))) :
  all_chunks embeddings_data
  = flat_map (fun entry =>
                take (min (length (fst (fst (snd entry))))
                        (length (snd (fst (snd entry)))))
                  (fst (fst (snd entry))))
      embeddings_data.
Proof.
  unfold all_chunks, flatten.
  induction embeddings_data as [|entry rest IH]; simpl; [done|].
  by rewrite map_app, flatten_url_chunks, IH.
Qed.

Lemma all_embeddings_zip (embeddings_data : list (string * (list string * list (list F) * Metadata))) :
  all_embeddings embeddings_data
  = flat_map (fun entry =>
                take (min (length (fst (fst (snd entry))))
                        (length (snd (fst (snd entry)))))
                  (snd (fst (snd entry))))
      embeddings_data.
Proof.
  unfold all_embeddings, flatten.
  induction embeddings_data as [|entry rest IH]; simpl; [done|].
  by rewrite map_app, flatten_url_embeddings, IH.
Qed.

Lemma load_after_save embeddings_data files files' :
  index_path config ≠ metadata_path config →
  save to_float32 config embeddings_data files = Some files' →
  ∃ dimension,
    np_dimension (all_embeddings embeddings_data) = Some dimension
    ∧ load config files'
      = Loaded dimension (map (map to_float32) (all_embeddings embeddings_data))
          (PList (map PStr (all_chunks embeddings_data)))
          (PList (map PDict (all_metadata embeddings_data))).
Proof.
  intros Hne. unfold save.
  destruct (np_dimension _) as [dimension|]; [|done].
  intros [= <-]. exists dimension. split; [done|]. unfold load.
  rewrite lookup_insert_ne by done.
  by rewrite !lookup_insert_eq.
Qed.
End StorageFacts.

Lemma np_dimension_None {F : Type} (rows : list (list F)) :
  np_dimension rows = None
  ↔ rows = [] ∨ ∃ r r', r ∈ rows ∧ r' ∈ rows ∧ length r ≠ length r'.
Proof.
  destruct rows as [|row rows]; simpl.
  - split; [by left|done].
  - destruct (forallb _ rows) eqn:Hall; split; try done.
    + intros [?|(r & r' & Hr & Hr' & Hne)]; [done|]. exfalso.
      rewrite forallb_forall in Hall.
      assert (∀ x, x ∈ row :: rows → length x = length row) as Hlen.
      { intros x [->|Hx]%elem_of_cons; [done|].
        by apply Nat.eqb_eq, Hall, list_elem_of_In. }
      rewrite (Hlen r Hr), (Hlen r' Hr') in Hne. done.
    + intros _. right.
      assert (∃ x, x ∈ rows ∧ length x ≠ length row) as (x & Hx & Hne).
      { clear -Hall. induction rows as [|r rows IH]; simpl in Hall; [done|].
        apply andb_false_iff in Hall as [Hr|Hrest].
        - exists r. split; [left|]. by apply Nat.eqb_neq.
        - destruct (IH Hrest) as (x & Hx & Hne). exists x. split; [by right|done]. }
      exists x, row. split; [by right|]. split; [left|done].
Qed.

(** ** The claims on the storage *)

(** C3.  When the index path and the metadata path differ and [save]
    returns, [load] on the files it leaves returns the index together with
    the chunk list and the per-chunk metadata list that [save] flattened
    and wrote, element for element; both lists and the index have as many
    entries as chunks were persisted.  When every URL comes with as many
    embeddings as chunks, the chunk list is the concatenation of the chunk
    lists passed to [save]. *)
Theorem load_after_save_round_trip {F : Type} (to_float32 : F -> F)
    (config : StorageConfig)
    (embeddings_data : list (string * (list string * list (list F) * Metadata)))
    (files files' : gmap string file) :
  index_path config ≠ metadata_path config →
  save to_float32 config embeddings_data files = Some files' →
  ∃ dimension vectors,
    load config files'
    = Loaded dimension vectors
        (PList (map PStr (all_chunks embeddings_data)))
        (PList (map PDict (all_metadata embeddings_data)))
    ∧ length (all_metadata embeddings_data) = length (all_chunks embeddings_data)
    ∧ length vectors = length (all_chunks embeddings_data)
    ∧ (Forall (fun entry => length (fst (fst (snd entry)))
                            = length (snd (fst (snd entry)))) embeddings_data →
       all_chunks embeddings_data
       = flat_map (fun entry => fst (fst (snd entry))) embeddings_data).
Proof.
  intros Hne Hsave.
  destruct (load_after_save to_float32 config embeddings_data files files' Hne Hsave)
    as (dimension & _ & Hload).
  exists dimension, (map (map to_float32) (all_embeddings embeddings_data)).
  split; [done|]. split; [|split].
  - unfold all_chunks, all_metadata. by rewrite !length_map.
  - unfold all_chunks, all_embeddings. by rewrite !length_map.
  - intros Hall. rewrite all_chunks_zip. clear Hsave Hload.
    induction Hall as [|entry rest Hlen _ IH]; simpl; [done|].
    rewrite IH. f_equal. rewrite <- Hlen, Nat.min_id. apply firstn_all.
Qed.

Lemma load_after_save_round_trip_witness :
  ∃ files' dimension vectors,
    save id Stored.config Stored.aligned ∅ = Some files'
    ∧ load Stored.config files'
      = Loaded dimension vectors
          (PList (map PStr (all_chunks Stored.aligned)))
          (PList (map PDict (all_metadata Stored.aligned))).
Proof.
  eexists.
  destruct (load_after_save_round_trip id Stored.config Stored.aligned ∅ _
              ltac:(discriminate) eq_refl)
    as (dimension & vectors & Hload & _).
  exists dimension, vectors. split; [reflexivity | exact Hload].
Defined.

(** C5 (counterexample).  A URL with two chunks and one embedding: [save]
    raises nothing, writes both files, and [load] returns one chunk. *)
Lemma save_accepts_count_mismatch :
  ¬ (∀ (embeddings_data : list (string * (list string * list (list Z) * Metadata))),
       Exists (fun entry => length (fst (fst (snd entry)))
                            ≠ length (snd (fst (snd entry)))) embeddings_data →
       save id Stored.config embeddings_data ∅ = None).
Proof.
  intros Hclaim. specialize (Hclaim Stored.mismatched).
  assert (save id Stored.config Stored.mismatched ∅ ≠ None) as Hsave
    by (vm_compute; discriminate).
  apply Hsave, Hclaim. constructor. simpl. lia.
Qed.

(** C5 (as amended).  [save] does not compare the number of chunks of a URL
    with the number of its embeddings.  It pairs them with [zip]: of each
    URL it keeps the first [min (len chunks) (len embeddings)] chunks and
    embeddings, and it persists those.  It raises exactly when the
    flattened embedding list is empty or holds vectors of different
    lengths; the input with two chunks and one embedding is stored as one
    chunk, which [load] returns. *)
Theorem save_pairs_by_zip {F : Type} (to_float32 : F -> F)
    (config : StorageConfig)
    (embeddings_data : list (string * (list string * list (list F) * Metadata)))
    (files : gmap string file) :
  (save to_float32 config embeddings_data files = None
   ↔ all_embeddings embeddings_data = []
     ∨ ∃ r r', r ∈ all_embeddings embeddings_data
               ∧ r' ∈ all_embeddings embeddings_data ∧ length r ≠ length r')
  ∧ all_chunks embeddings_data
    = flat_map (fun entry =>
                  take (min (length (fst (fst (snd entry))))
                          (length (snd (fst (snd entry)))))
                    (fst (fst (snd entry))))
        embeddings_data
  ∧ all_embeddings embeddings_data
    = flat_map (fun entry =>
                  take (min (length (fst (fst (snd entry))))
                          (length (snd (fst (snd entry)))))
                    (snd (fst (snd entry))))
        embeddings_data
  ∧ (load Stored.config
       (default ∅ (save id Stored.config Stored.mismatched ∅))
     = Loaded 3 [[1; 2; 3]%Z] (PList [PStr "first chunk"])
         (PList [PDict (Stored.page_metadata
                          ++ [("chunk_id", PInt 0); ("chunk_text", PStr "first chunk")])])).
Proof.
  split; [|split; [|split]].
  - rewrite <- np_dimension_None. unfold save.
    destruct (np_dimension _); split; done.
  - apply all_chunks_zip.
  - apply all_embeddings_zip.
  - vm_compute. reflexivity.
Qed.

(** * Further properties of the code *)

(** ** The crawl loops *)

Section CrawlMore.
Variable urlparse : string -> ParseResult.
Variable session_get : string -> response.
Variable config : ScraperConfig.
Variable disallowed_paths : list string.

Lemma body_preserves_log {R : Type} (on_page : string -> Page -> R -> R)
    (budget : Z) (s : crawl_state R) :
  loop_cond budget s = true → log_inv s →
  log_inv (loop_body urlparse session_get config disallowed_paths on_page s).
Proof.
  intros (url & rest & Hq & _)%cond_true_inv [Hnd Hreq].
  destruct (body_cases urlparse session_get config disallowed_paths on_page
              s url rest Hq) as [[Hin ->]|(Hnin & Hv & Hr & _)]; [done|].
  unfold log_inv. rewrite Hv, Hr. split.
  - apply NoDup_app. split; [done|]. split; [|apply NoDup_singleton].
    intros u Hu ->%list_elem_of_singleton. by apply Hnin, Hreq.
  - intros u. rewrite elem_of_app, list_elem_of_singleton, elem_of_union,
      elem_of_singleton, Hreq. tauto.
Qed.

Lemma iter_preserves_log {R : Type} (on_page : string -> Page -> R -> R)
    (budget : Z) (n : nat) (s : crawl_state R) :
  log_inv s →
  log_inv (loop_iter urlparse session_get config disallowed_paths on_page
             budget n s).
Proof.
  revert s. induction n as [|n IH]; intros s Hs; simpl; [done|].
  destruct (loop_cond budget s) eqn:Hc; [|done].
  by eapply IH, body_preserves_log.
Qed.

Lemma fresh_log_inv {R : Type} (e : R) : log_inv (fresh config e).
Proof.
  split; [apply NoDup_nil_2|]. intros u. unfold fresh; simpl.
  split; [by intros ?%elem_of_nil | by intros ?%elem_of_empty].
Qed.

Lemma stored_keys {V : Type} (f : string -> Page -> V) (l : list string) (u : string) :
  u ∈ Py.keys (omap (stored_for session_get f) l) → u ∈ l.
Proof.
  unfold Py.keys. intros (x & -> & Hx)%list_elem_of_fmap.
  apply list_elem_of_omap in Hx as (y & Hy & Hs).
  unfold stored_for in Hs. destruct (session_get y); [done|].
  injection Hs as <-. done.
Qed.

(** What a loop with the handler [collected[url] = f url page] has
    collected: the entries of the requests answered with 200, in the order
    of the requests. *)
Lemma body_collected {V : Type} (f : string -> Page -> V) (budget : Z)
    (s : crawl_state (list (string * V))) :
  log_inv s →
  collected s = omap (stored_for session_get f) (requests s) →
  let s' := loop_body urlparse session_get config disallowed_paths
              (fun url page acc => Py.dict_set url (f url page) acc) s in
  collected s' = omap (stored_for session_get f) (requests s').
Proof.
  intros [Hnd Hreq] Hc. unfold loop_body.
  destruct (urls_to_visit s) as [|url rest]; [done|].
  destruct (decide (url ∈ visited_urls s)) as [Hin|Hnin]; [done|].
  assert (url ∉ Py.keys (collected s)) as Hfresh.
  { rewrite Hc. intros Hk%stored_keys. by apply Hnin, Hreq. }
  destruct (session_get url) as [|page] eqn:Hget; simpl.
  - rewrite omap_app. simpl. unfold stored_for at 2. rewrite Hget.
    by rewrite app_nil_r.
  - assert (Py.dict_set url (f url page) (collected s)
            = omap (stored_for session_get f) (requests s ++ [url])) as Hgoal.
    { rewrite dict_set_fresh by done. rewrite omap_app. simpl.
      unfold stored_for at 2. rewrite Hget. by rewrite Hc. }
    destruct (anchors page); simpl; exact Hgoal.
Qed.

Lemma iter_collected {V : Type} (f : string -> Page -> V) (budget : Z) (n : nat)
    (s : crawl_state (list (string * V))) :
  log_inv s →
  collected s = omap (stored_for session_get f) (requests s) →
  let s' := loop_iter urlparse session_get config disallowed_paths
              (fun url page acc => Py.dict_set url (f url page) acc) budget n s in
  collected s' = omap (stored_for session_get f) (requests s').
Proof.
  revert s. induction n as [|n IH]; intros s Hlog Hc; simpl; [done|].
  destruct (loop_cond budget s) eqn:Hcond; [|done].
  apply IH.
  - by eapply body_preserves_log.
  - by apply (body_collected f budget).
Qed.

(** The frontier moves the same way whatever the loop collects. *)
Lemma body_frontier {R1 R2 : Type} (on1 : string -> Page -> R1 -> R1)
    (on2 : string -> Page -> R2 -> R2) (s1 : crawl_state R1) (s2 : crawl_state R2) :
  frontier s1 = frontier s2 →
  frontier (loop_body urlparse session_get config disallowed_paths on1 s1)
  = frontier (loop_body urlparse session_get config disallowed_paths on2 s2).
Proof.
  unfold frontier. intros [= Hv Hq Hr]. unfold loop_body. rewrite Hq, Hv, Hr.
  destruct (urls_to_visit s2) as [|url rest] eqn:Hq2; simpl; [congruence|].
  destruct (decide (url ∈ visited_urls s2)); simpl; [done|].
  destruct (session_get url) as [|page]; simpl; [done|].
  destruct (anchors page); done.
Qed.

Lemma cond_frontier {R1 R2 : Type} (budget : Z)
    (s1 : crawl_state R1) (s2 : crawl_state R2) :
  frontier s1 = frontier s2 → loop_cond budget s1 = loop_cond budget s2.
Proof. unfold frontier, loop_cond. intros [= -> -> _]. done. Qed.

Lemma iter_frontier {R1 R2 : Type} (on1 : string -> Page -> R1 -> R1)
    (on2 : string -> Page -> R2 -> R2) (budget : Z) (n : nat)
    (s1 : crawl_state R1) (s2 : crawl_state R2) :
  frontier s1 = frontier s2 →
  frontier (loop_iter urlparse session_get config disallowed_paths on1 budget n s1)
  = frontier (loop_iter urlparse session_get config disallowed_paths on2 budget n s2).
Proof.
  revert s1 s2. induction n as [|n IH]; intros s1 s2 Hf; simpl; [done|].
  rewrite (cond_frontier budget s1 s2 Hf).
  destruct (loop_cond budget s2); [|done]. by apply IH, body_frontier.
Qed.

Lemma run_frontier {R1 R2 : Type} (on1 : string -> Page -> R1 -> R1)
    (on2 : string -> Page -> R2 -> R2) (budget : Z) (fuel : nat)
    (s1 : crawl_state R1) (s2 : crawl_state R2) :
  frontier s1 = frontier s2 →
  is_Some (loop_run urlparse session_get config disallowed_paths on1 budget fuel s1)
  ↔ is_Some (loop_run urlparse session_get config disallowed_paths on2 budget fuel s2).
Proof.
  revert s1 s2. induction fuel as [|fuel IH]; intros s1 s2 Hf; simpl;
    rewrite (cond_frontier budget s1 s2 Hf); destruct (loop_cond budget s2).
  - split; intros [? ?]; done.
  - split; intros _; eauto.
  - by apply IH, body_frontier.
  - split; intros _; eauto.
Qed.
End CrawlMore.

(** *** Dictionaries *)

Lemma dict_set_keys_iff {V} (k : string) (v : V) (d : list (string * V)) (u : string) :
  u ∈ Py.keys (Py.dict_set k v d) ↔ u = k ∨ u ∈ Py.keys d.
Proof.
  unfold Py.keys. induction d as [|[k' v'] d IH]; simpl.
  - rewrite list_elem_of_singleton. split; [tauto|].
    intros [?|[]%elem_of_nil]. done.
  - destruct (decide (k = k')) as [->|Hne]; simpl; rewrite !elem_of_cons.
    + tauto.
    + rewrite IH. tauto.
Qed.

Lemma dict_set_NoDup {V} (k : string) (v : V) (d : list (string * V)) :
  NoDup (Py.keys d) → NoDup (Py.keys (Py.dict_set k v d)).
Proof.
  unfold Py.keys. induction d as [|[k' v'] d IH]; simpl.
  - intros _. apply NoDup_singleton.
  - intros [Hk Hd]%NoDup_cons. destruct (decide (k = k')) as [->|Hne]; simpl.
    + by apply NoDup_cons.
    + apply NoDup_cons. split; [|by apply IH].
      intros [Heq|Hin]%(dict_set_keys_iff k v d k'); [congruence|done].
Qed.

Lemma dict_get_set_eq {V} (k : string) (v : V) (d : list (string * V)) :
  Py.dict_get k (Py.dict_set k v d) = Some v.
Proof.
  induction d as [|[k' v'] d IH]; simpl.
  - by destruct (decide (k = k)).
  - destruct (decide (k = k')) as [->|Hne]; simpl.
    + by destruct (decide (k' = k')).
    + by destruct (decide (k = k')).
Qed.

Lemma dict_get_set_ne {V} (k k0 : string) (v : V) (d : list (string * V)) :
  k0 ≠ k → Py.dict_get k0 (Py.dict_set k v d) = Py.dict_get k0 d.
Proof.
  intros Hne. induction d as [|[k' v'] d IH]; simpl.
  - by destruct (decide (k0 = k)).
  - destruct (decide (k = k')) as [->|Hne']; simpl.
    + by destruct (decide (k0 = k')).
    + destruct (decide (k0 = k')); [done|apply IH].
Qed.

Lemma stored_content_path (session_get : string -> response)
    (content_path : string -> string) (l : list string) :
  omap (stored_for session_get (fun url _ => content_path url)) l
  = map (fun url => (url, content_path url)) (List.filter (answers_200 session_get) l).
Proof.
  induction l as [|u l IH]; [done|].
  cbn [omap list_omap List.filter]. rewrite IH.
  unfold stored_for, answers_200.
  by destruct (session_get u).
Qed.

Lemma stored_keys_filter {V} (session_get : string -> response)
    (f : string -> Page -> V) (l : list string) :
  Py.keys (omap (stored_for session_get f) l)
  = List.filter (answers_200 session_get) l.
Proof.
  unfold Py.keys. induction l as [|u l IH]; [done|].
  cbn [omap list_omap List.filter]. rewrite <- IH.
  unfold stored_for, answers_200.
  by destruct (session_get u).
Qed.

Lemma NoDup_filter_list {A} (P : A → bool) (l : list A) :
  NoDup l → NoDup (List.filter P l).
Proof.
  induction 1 as [|x l Hx Hl IH]; simpl; [apply NoDup_nil_2|].
  destruct (P x); [|done]. apply NoDup_cons. split; [|done].
  intros Hin%list_elem_of_In%filter_In. apply Hx, list_elem_of_In. tauto.
Qed.

(** *** What the crawl requests and stores *)

(** X1.  When every start URL passes [_is_allowed], every URL that
    [scrape] or [discover_pages] holds in its queue or requests, at any
    point of the pass, passes [_is_allowed], and so does every key of the
    content map collected so far. *)
Theorem crawl_stays_within_policy
    (urlparse : string -> ParseResult) (session_get : string -> response)
    (config : ScraperConfig) (disallowed_paths : list string)
    (content_path : string -> string) (discover_budget : Z) (n : nat) :
  (∀ u, u ∈ start_urls config →
        _is_allowed urlparse config disallowed_paths u = true) →
  let s := scrape_iter urlparse session_get config disallowed_paths
             content_path n in
  let d := discover_iter urlparse session_get config disallowed_paths
             discover_budget n in
  (∀ u, u ∈ urls_to_visit s ∨ u ∈ requests s ∨ u ∈ Py.keys (collected s) →
        _is_allowed urlparse config disallowed_paths u = true)
  ∧ (∀ u, u ∈ urls_to_visit d ∨ u ∈ requests d ∨ u ∈ Py.keys (collected d) →
          _is_allowed urlparse config disallowed_paths u = true).
Proof.
  intros Hstart s d.
  assert (∀ R (e : R),
            queue_allowed urlparse config disallowed_paths (fresh config e))
    as Hfresh.
  { intros R e. split; simpl; [done|]. by intros ? ?%elem_of_nil. }
  split.
  - destruct (iter_preserves_allowed urlparse session_get config
                disallowed_paths (scrape_on_page content_path)
                (max_pages config) n _ (Hfresh _ [])) as [Hq Hr].
    pose proof (iter_collected urlparse session_get config disallowed_paths
                  (fun url _ => content_path url) (max_pages config) n
                  (fresh config []) (fresh_log_inv config []) eq_refl) as Hc.
    intros u [Hu|[Hu|Hu]]; [by apply Hq|by apply Hr|].
    apply Hr. unfold s, scrape_iter, scrape_on_page. unfold s, scrape_iter,
      scrape_on_page in Hu. simpl in Hc. rewrite Hc in Hu.
    by apply stored_keys in Hu.
  - destruct (iter_preserves_allowed urlparse session_get config
                disallowed_paths discover_on_page
                discover_budget n _ (Hfresh _ [])) as [Hq Hr].
    pose proof (iter_collected urlparse session_get config disallowed_paths
                  _extract_page_info discover_budget n
                  (fresh config []) (fresh_log_inv config []) eq_refl) as Hc.
    intros u [Hu|[Hu|Hu]]; [by apply Hq|by apply Hr|].
    apply Hr. unfold d, discover_iter, discover_on_page. unfold d, discover_iter,
      discover_on_page in Hu. simpl in Hc. rewrite Hc in Hu.
    by apply stored_keys in Hu.
Qed.

Lemma crawl_stays_within_policy_witness :
  _is_allowed urlparse_simple Site.config ["/private"] Site.page_c = true.
Proof.
  refine (proj1 (crawl_stays_within_policy urlparse_simple Site.session_get
                   Site.config ["/private"] Site.content_path 5%Z 4 _)
            Site.page_c _).
  - intros u Hu. apply list_elem_of_singleton in Hu. subst u.
    vm_compute. reflexivity.
  - right. right. apply (bool_decide_unpack _). vm_compute. exact I.
Defined.



(** ** The second pass and the selection *)

Section SelectedMore.
Variable session_get : string -> response.
Variable content_path : string -> string.

Abbreviation fetch_step :=
  (fun (content_map : list (string * string)) (url : string) =>
     match session_get url with
     | Ok200 _ => Py.dict_set url (content_path url) content_map
     | Failed => content_map
     end).

Lemma selected_fold_keys (selected_urls : list string) :
  ∀ acc u,
    u ∈ Py.keys (fold_left fetch_step selected_urls acc)
    ↔ u ∈ Py.keys acc ∨ (u ∈ selected_urls ∧ answers_200 session_get u = true).
Proof.
  induction selected_urls as [|url rest IH]; intros acc u; simpl.
  - split; [tauto|]. intros [?|[[]%elem_of_nil _]]. done.
  - rewrite IH, elem_of_cons. unfold answers_200.
    destruct (session_get url) eqn:Hget.
    + split; [tauto|]. intros [?|[[->|?] Hok]]; [tauto| |tauto].
      by rewrite Hget in Hok.
    + rewrite dict_set_keys_iff. split.
      * intros [[->|?]|?]; [|tauto|tauto]. right. by rewrite Hget; split; [left|].
      * intros [?|[[->|?] Hok]]; tauto.
Qed.

Lemma selected_fold_NoDup (selected_urls : list string) :
  ∀ acc, NoDup (Py.keys acc) →
         NoDup (Py.keys (fold_left fetch_step selected_urls acc)).
Proof.
  induction selected_urls as [|url rest IH]; intros acc Hacc; simpl; [done|].
  apply IH. destruct (session_get url); [done|]. by apply dict_set_NoDup.
Qed.

Lemma selected_fold_fresh (selected_urls : list string) :
  ∀ acc,
    NoDup selected_urls →
    (∀ u, u ∈ selected_urls →
          answers_200 session_get u = true ∧ u ∉ Py.keys acc) →
    fold_left fetch_step selected_urls acc
    = acc ++ map (fun url => (url, content_path url)) selected_urls.
Proof.
  induction selected_urls as [|url rest IH]; intros acc Hnd Hall; simpl.
  - by rewrite app_nil_r.
  - apply NoDup_cons in Hnd as [Hurl Hnd].
    destruct (Hall url) as [Hok Hfresh]; [left|].
    unfold answers_200 in Hok. destruct (session_get url) eqn:Hget; [done|].
    rewrite dict_set_fresh by done. rewrite IH; [by rewrite <- app_assoc|done|].
    intros u Hu. destruct (Hall u) as [Hu1 Hu2]; [by right|].
    split; [done|]. rewrite keys_app, elem_of_app. simpl.
    rewrite list_elem_of_singleton. intros [?| ->]; done.
Qed.
End SelectedMore.

Lemma keys_filter_sub {V} (P : string * V → bool) (d : list (string * V)) (u : string) :
  u ∈ Py.keys (List.filter P d) → u ∈ Py.keys d.
Proof.
  unfold Py.keys. intros (x & -> & Hx)%list_elem_of_fmap.
  apply list_elem_of_In, filter_In in Hx as [Hx _].
  apply list_elem_of_fmap. exists x. split; [done|]. by apply list_elem_of_In.
Qed.

Lemma keys_filter_NoDup {V} (P : string * V → bool) (d : list (string * V)) :
  NoDup (Py.keys d) → NoDup (Py.keys (List.filter P d)).
Proof.
  induction d as [|[k v] d IH]; simpl; [done|].
  intros [Hk Hd]%NoDup_cons. destruct (P (k, v)); simpl; [|by apply IH].
  apply NoDup_cons. split; [|by apply IH].
  intros Hin%keys_filter_sub. done.
Qed.

Lemma omap_NoDup {A B} (f : A → option B) (l : list A) :
  NoDup l →
  (∀ x y z, x ∈ l → y ∈ l → f x = Some z → f y = Some z → x = y) →
  NoDup (omap f l).
Proof.
  induction 1 as [|x l Hx Hl IH]; intros Hinj; [apply NoDup_nil_2|].
  cbn [omap list_omap].
  assert (NoDup (omap f l)) as Hrest.
  { apply IH. intros a b z Ha Hb. apply Hinj; by right. }
  destruct (f x) as [z|] eqn:Hfx; [|done].
  apply NoDup_cons. split; [|done].
  intros (y & Hy & Hfy)%list_elem_of_omap.
  apply Hx. rewrite (Hinj x y z); [done|left|by right|done|done].
Qed.

Lemma pick_inj (urls : list string) (i j : Z) (u : string) :
  NoDup urls → pick urls i = Some u → pick urls j = Some u → i = j.
Proof.
  intros Hnd [Hi Hli]%pick_Some [Hj Hlj]%pick_Some.
  pose proof (NoDup_lookup _ _ _ _ Hnd Hli Hlj). lia.
Qed.

(** What any call of the method may select: URLs of the table, each once. *)
Lemma selection_within_table (discovered_pages : list (string * PageInfo))
    (script : list answers) (selected_urls : list string) :
  NoDup (Py.keys discovered_pages) →
  select_pages_interactive discovered_pages script = Selected selected_urls →
  NoDup selected_urls ∧ ∀ u, u ∈ selected_urls → u ∈ Py.keys discovered_pages.
Proof.
  intros Hnd. induction script as [|a script IH]; simpl; [done|].
  destruct (choice a =? 1)%Z.
  { intros [= <-]. done. }
  destruct (choice a =? 2)%Z.
  { unfold select_by_index.
    destruct (parse_indices _ _) as [S|]; [|done]. intros [= <-]. split.
    - apply omap_NoDup; [apply NoDup_elements|].
      intros x y z _ _ Hx Hy. by apply (pick_inj _ _ _ z Hnd).
    - intros u (idx & _ & [_ Hl]%pick_Some)%list_elem_of_omap.
      by eapply list_elem_of_lookup_2. }
  destruct (choice a =? 3)%Z.
  { destruct (confirm a); [|done]. intros [= <-]. split.
    - by apply keys_filter_NoDup.
    - intros u. apply keys_filter_sub. }
  destruct (choice a =? 4)%Z; [|done].
  intros [= <-]. split; [apply NoDup_nil_2|]. by intros ? ?%elem_of_nil.
Qed.


(** X5.  Whatever the operator answers, [interactive_scrape] stores only
    URLs of the discovery table: when it returns a content map, its keys are
    distinct, each is a key of the table that discovery returned, each
    answered 200 in the second pass, and each is mapped to its content
    path. *)
Theorem interactive_content_within_discovery
    (urlparse : string -> ParseResult) (session_get : string -> response)
    (config : ScraperConfig) (disallowed_paths : list string)
    (content_path : string -> string) (fuel : nat) (script : list answers)
    (discovered_pages : list (string * PageInfo))
    (content_map : list (string * string)) :
  discover_pages urlparse session_get config disallowed_paths
    (max_pages config) fuel = Some discovered_pages →
  interactive_scrape urlparse session_get config disallowed_paths content_path
    fuel script = Some (Returned content_map) →
  NoDup (Py.keys content_map)
  ∧ ∀ u, u ∈ Py.keys content_map →
         u ∈ Py.keys discovered_pages ∧ answers_200 session_get u = true.
Proof.
  intros Hd. unfold interactive_scrape. rewrite Hd.
  assert (NoDup (Py.keys discovered_pages)) as Hnd.
  { unfold discover_pages in Hd.
    destruct (loop_run _ _ _ _ _ _ fuel _) as [d|] eqn:Hrun; [|done].
    injection Hd as <-. apply run_iter in Hrun as [-> _].
    pose proof (iter_collected urlparse session_get config disallowed_paths
                  _extract_page_info (max_pages config) fuel
                  (fresh config []) (fresh_log_inv config []) eq_refl) as Hcd.
    destruct (iter_preserves_log urlparse session_get config disallowed_paths
                discover_on_page (max_pages config) fuel
                (fresh config []) (fresh_log_inv config [])) as [Hlog _].
    simpl in Hcd. unfold discover_on_page. unfold discover_on_page in Hlog.
    rewrite Hcd, stored_keys_filter. by apply NoDup_filter_list. }
  destruct (select_pages_interactive discovered_pages script)
    as [selected_urls| |] eqn:Hsel; [|done|done].
  destruct (selection_within_table _ _ _ Hnd Hsel) as [_ Hsub].
  destruct selected_urls as [|u0 rest]; intros [= <-].
  { split; [apply NoDup_nil_2|]. by intros ? ?%elem_of_nil. }
  unfold scrape_selected_pages. split.
  - apply selected_fold_NoDup. apply NoDup_nil_2.
  - intros u [[]%elem_of_nil|[Hu Hok]]%selected_fold_keys.
    split; [by apply Hsub|done].
Qed.

Lemma interactive_content_within_discovery_witness :
  NoDup (Py.keys [(Site.page_b, Site.content_path Site.page_b)]).
Proof.
  refine (proj1 (interactive_content_within_discovery urlparse_simple
                   Site.session_get Site.config [] Site.content_path 4
                   [{| choice := 2; text := "2,17"; confirm := false |}]
                   Site.discovered
                   [(Site.page_b, Site.content_path Site.page_b)] _ _)).
  - vm_compute. reflexivity.
  - vm_compute. reflexivity.
Defined.

(** X6.  Whatever the operator chooses, a selection holds URLs of the
    discovery table only, and each once: an index given twice or covered by
    two ranges selects its page once, and so does a page that the keyword
    matches in its URL and in its title. *)
Theorem selection_is_a_duplicate_free_part_of_the_table
    (discovered_pages : list (string * PageInfo))
    (script : list answers) (selected_urls : list string) :
  NoDup (Py.keys discovered_pages) →
  select_pages_interactive discovered_pages script = Selected selected_urls →
  NoDup selected_urls
  ∧ (∀ u, u ∈ selected_urls → u ∈ Py.keys discovered_pages)
  ∧ (length selected_urls <= length discovered_pages)%nat.
Proof.
  intros Hnd Hsel.
  destruct (selection_within_table _ _ _ Hnd Hsel) as [Hsnd Hsub].
  split; [done|]. split; [done|].
  replace (length discovered_pages) with (length (Py.keys discovered_pages))
    by (unfold Py.keys; apply length_map).
  apply submseteq_length, NoDup_submseteq; done.
Qed.

Lemma selection_is_a_duplicate_free_part_of_the_table_witness :
  NoDup [Site.page_c; Site.home].
Proof.
  refine (proj1 (selection_is_a_duplicate_free_part_of_the_table
                   Site.discovered
                   [{| choice := 9; text := ""; confirm := false |};
                    {| choice := 2; text := "1,1-1,3,8"; confirm := false |}]
                   [Site.page_c; Site.home] _ _)).
  - apply (bool_decide_unpack _). vm_compute. exact I.
  - vm_compute. reflexivity.
Defined.

(** ** The index list and the keyword *)

Lemma prefix_empty (s : string) : String.prefix "" s = true.
Proof. by destruct s. Qed.

Lemma prefix_refl (s : string) : String.prefix s s = true.
Proof.
  induction s as [|c s IH]; simpl; [done|]. by destruct (ascii_dec c c).
Qed.

Lemma contains_refl (s : string) : Py.contains s s = true.
Proof.
  destruct s as [|c s]; [done|].
  change (String.prefix (String c s) (String c s) || Py.contains s (String c s) = true).
  by rewrite prefix_refl.
Qed.

Lemma contains_empty (s : string) : Py.contains s "" = true.
Proof. by destruct s. Qed.

Lemma contains_char (c : ascii) (s : string) :
  Py.contains s (String c "") = has_char c s.
Proof.
  induction s as [|c' s IH]; simpl; [done|].
  rewrite IH, prefix_empty.
  destruct (ascii_dec c c') as [->|Hne].
  - by rewrite Ascii.eqb_refl.
  - destruct (Ascii.eqb c' c) eqn:Heq; [|done].
    apply Ascii.eqb_eq in Heq. congruence.
Qed.

Lemma split_go_nonempty (sep : ascii) (s cur : string) :
  Py.split_go sep cur s ≠ [].
Proof.
  revert cur. induction s as [|c s IH]; intros cur; simpl; [done|].
  destruct (Ascii.eqb c sep); [done|apply IH].
Qed.

Lemma leading_hyphen_part (s : string) : parse_part (String "-" s) = None.
Proof.
  unfold parse_part. rewrite contains_char. simpl.
  unfold Py.split. simpl.
  pose proof (split_go_nonempty "-" s "") as Hne.
  destruct (Py.split_go "-" "" s) as [|b [|c l]]; done.
Qed.

(** X7.  A negative index cannot be entered.  Under choice 2, an input
    with an entry that starts with a hyphen makes the method raise
    [ValueError]: the entry is cut at the hyphen into an empty first field
    and a rest, and [int] of the empty field raises.  The entry is not
    dropped as an index out of range would be. *)
Theorem leading_hyphen_raises (discovered_pages : list (string * PageInfo))
    (indices_str rest : string) (c : bool) (script : list answers) :
  String "-" rest ∈ Py.split "," indices_str →
  select_pages_interactive discovered_pages
    ({| choice := 2; text := indices_str; confirm := c |} :: script)
  = ValueError.
Proof.
  intros Hin. simpl. unfold select_by_index.
  by rewrite (parse_indices_None _ _ ∅ Hin (leading_hyphen_part rest)).
Qed.

Lemma leading_hyphen_raises_witness :
  select_pages_interactive Site.discovered
    ({| choice := 2; text := "1,-2"; confirm := false |} :: [])
  = ValueError.
Proof.
  refine (leading_hyphen_raises Site.discovered "1,-2" "2" false [] _).
  apply (bool_decide_unpack _). vm_compute. exact I.
Defined.

(** X8.  An entry that the hyphen cuts into two fields which [int] reads
    as [first] and [last] adds exactly the indices from [first] to [last],
    both included; when [last] is below [first] it adds none, without an
    error. *)
Theorem range_entry_is_inclusive (part a b : string) (first last : Z) :
  Py.split "-" part = [a; b] →
  Py_int.int a = Some first →
  Py_int.int b = Some last →
  ∃ new,
    parse_part part = Some new
    ∧ (∀ idx, idx ∈ new ↔ (first <= idx <= last)%Z)
    ∧ ((last < first)%Z → new = []).
Proof.
  intros Hsplit Ha Hb. exists (seqZ first (last + 1 - first)).
  split; [|split].
  - unfold parse_part. rewrite contains_char.
    destruct (has_char "-" part) eqn:Hh.
    + by rewrite Hsplit, Ha, Hb.
    + unfold Py.split in Hsplit. by rewrite split_no_sep in Hsplit.
  - intros idx. rewrite elem_of_seqZ. lia.
  - intros Hlt. destruct (seqZ first (last + 1 - first)) as [|x l] eqn:Hs; [done|].
    assert (x ∈ seqZ first (last + 1 - first)) as Hx by (rewrite Hs; left).
    apply elem_of_seqZ in Hx. lia.
Qed.

Lemma range_entry_is_inclusive_witness :
  ∃ new, parse_part " 5 - 7" = Some new ∧ (6%Z ∈ new ↔ (5 <= 6 <= 7)%Z).
Proof.
  destruct (range_entry_is_inclusive " 5 - 7" " 5 " " 7" 5 7)
    as (new & Hp & Hin & _).
  - reflexivity.
  - reflexivity.
  - reflexivity.
  - exists new. split; [exact Hp | exact (Hin 6%Z)].
Defined.

Lemma lower_char_idemp (c : ascii) :
  Py.lower_char (Py.lower_char c) = Py.lower_char c.
Proof.
  destruct c as [[] [] [] [] [] [] [] []]; reflexivity.
Qed.

Lemma lower_idemp (s : string) : Py.lower (Py.lower s) = Py.lower s.
Proof.
  induction s as [|c s IH]; simpl; [done|]. by rewrite lower_char_idemp, IH.
Qed.

(** X9.  The keyword filter of choice 3 ignores the case of the keyword,
    selects every page for the empty keyword, selects a page when the
    keyword is the page's URL, and returns keys of the table only, in the
    order of the table. *)
Theorem keyword_filter_facts (keyword : string)
    (discovered_pages : list (string * PageInfo)) :
  keyword_filter (Py.lower keyword) discovered_pages
  = keyword_filter keyword discovered_pages
  ∧ keyword_filter "" discovered_pages = Py.keys discovered_pages
  ∧ (∀ url info, (url, info) ∈ discovered_pages →
                 url ∈ keyword_filter url discovered_pages)
  ∧ sublist (keyword_filter keyword discovered_pages) (Py.keys discovered_pages).
Proof.
  split; [|split; [|split]].
  - unfold keyword_filter. by rewrite lower_idemp.
  - unfold keyword_filter. f_equal.
    induction discovered_pages as [|[url info] d IH]; [done|].
    cbn [List.filter]. change (Py.lower "") with "". rewrite contains_empty.
    cbn [orb]. f_equal. exact IH.
  - intros url info Hin. unfold keyword_filter, Py.keys.
    apply list_elem_of_fmap. exists (url, info). split; [done|].
    apply list_elem_of_In, filter_In. split; [by apply list_elem_of_In|].
    by rewrite contains_refl.
  - unfold keyword_filter, Py.keys.
    induction discovered_pages as [|[url info] d IH]; simpl; [done|].
    destruct (_ || _); simpl; [by apply sublist_skip|by apply sublist_cons].
Qed.

(** ** The crawl-exclusion rules *)

Lemma robots_fold_nonempty (ua : string) (lines : list string) :
  ∀ st, (∀ p, p ∈ snd st → p ≠ "") →
        ∀ p, p ∈ snd (fold_left (robots_line ua) lines st) → p ≠ "".
Proof.
  induction lines as [|line lines IH]; intros st Hst; simpl; [done|].
  apply IH. unfold robots_line.
  destruct (Py.startswith _ "user-agent:"); [done|].
  destruct (fst st && _); [|done].
  destruct (String.eqb _ "") eqn:He; [done|].
  simpl. intros p [Hp| ->%list_elem_of_singleton]%elem_of_app; [by apply Hst|].
  by apply String.eqb_neq in He.
Qed.

Lemma robots_fold_no_group (ua : string) (lines : list string) :
  forallb (fun line => negb (is_agent_line line)) lines = true →
  fold_left (robots_line ua) lines (false, []) = (false, []).
Proof.
  induction lines as [|line lines IH]; simpl; [done|].
  intros [Hl Hrest]%andb_true_iff. apply negb_true_iff in Hl.
  unfold is_agent_line in Hl. unfold robots_line at 2. rewrite Hl. simpl.
  by apply IH.
Qed.

(** X10.  The rule list that [__init__] derives from robots.txt.  It is
    empty when [respect_robots_txt] is off and when the request for
    robots.txt fails; it is empty when no line of the file opens a
    [User-agent] group, whatever [Disallow] lines the file has; and it never
    holds an empty prefix (a [Disallow:] line without a path adds no
    rule). *)
Theorem robots_rules_facts (config : ScraperConfig) (text : string) :
  init_disallowed_paths config None = []
  ∧ (respect_robots_txt config = false →
     init_disallowed_paths config (Some text) = [])
  ∧ (forallb (fun line => negb (is_agent_line line)) (Py.split newline text) = true →
     init_disallowed_paths config (Some text) = [])
  ∧ ∀ p, p ∈ init_disallowed_paths config (Some text) → p ≠ "".
Proof.
  unfold init_disallowed_paths, _parse_robots_txt.
  split; [by destruct (respect_robots_txt config)|].
  split; [by intros ->|]. split.
  - intros Hno. destruct (respect_robots_txt config); [|done].
    change "010"%char with newline. by rewrite robots_fold_no_group.
  - destruct (respect_robots_txt config); [|by intros ? ?%elem_of_nil].
    apply robots_fold_nonempty. by intros ? ?%elem_of_nil.
Qed.

Lemma robots_rules_facts_witness :
  init_disallowed_paths Site.config
    (Some "Disallow: /private
Sitemap: https://example.com/sitemap.xml") = [].
Proof.
  refine (proj1 (proj2 (proj2 (robots_rules_facts Site.config _))) _).
  vm_compute. reflexivity.
Defined.

(** ** The politeness check *)

(** X11.  [_is_allowed] accepts a URL exactly when its host is one of the
    allowed domains, no rule is the single slash, and its path starts with
    no rule.  So one rule [/] closes the whole site, whatever the path; a
    URL off the allowed domains is rejected whatever the rules; and with
    more rules no further URL is accepted. *)
Theorem is_allowed_characterised (urlparse : string -> ParseResult)
    (config : ScraperConfig) (disallowed_paths more : list string) (url : string) :
  (_is_allowed urlparse config disallowed_paths url = true
   ↔ netloc (urlparse url) ∈ allowed_domains config
     ∧ ∀ p, p ∈ disallowed_paths →
            p ≠ "/" ∧ Py.startswith (path (urlparse url)) p = false)
  ∧ ("/" ∈ disallowed_paths →
     _is_allowed urlparse config disallowed_paths url = false)
  ∧ (netloc (urlparse url) ∉ allowed_domains config →
     _is_allowed urlparse config disallowed_paths url = false)
  ∧ (_is_allowed urlparse config (disallowed_paths ++ more) url = true →
     _is_allowed urlparse config disallowed_paths url = true).
Proof.
  assert (∀ rules,
            _is_allowed urlparse config rules url = true
            ↔ netloc (urlparse url) ∈ allowed_domains config
              ∧ ∀ p, p ∈ rules →
                     p ≠ "/" ∧ Py.startswith (path (urlparse url)) p = false)
    as Hchar.
  { intros rules. unfold _is_allowed.
    destruct (bool_decide _) eqn:Hdom; simpl.
    - apply bool_decide_eq_true in Hdom. rewrite forallb_forall. split.
      + intros Hall. split; [done|]. intros p Hp%list_elem_of_In.
        specialize (Hall p Hp). apply negb_true_iff, orb_false_iff in Hall.
        destruct Hall as [Hs Hpre]. split; [|done]. by apply String.eqb_neq.
      + intros [_ Hall] p Hp%list_elem_of_In. destruct (Hall p Hp) as [Hs Hpre].
        apply negb_true_iff, orb_false_iff. split; [|done]. by apply String.eqb_neq.
    - apply bool_decide_eq_false in Hdom. split; [done|]. by intros [? _]. }
  split; [apply Hchar|]. split; [|split].
  - intros Hroot. apply not_true_is_false. intros [_ Hall]%Hchar.
    by destruct (Hall "/" Hroot).
  - intros Hdom. apply not_true_is_false. by intros [? _]%Hchar.
  - intros [Hdom Hall]%Hchar. apply Hchar. split; [done|].
    intros p Hp. apply Hall, elem_of_app. by left.
Qed.

Lemma is_allowed_characterised_witness :
  _is_allowed urlparse_simple Site.config ["/"] Site.page_b = false.
Proof.
  refine (proj1 (proj2 (is_allowed_characterised urlparse_simple Site.config
                          ["/"] [] Site.page_b)) _).
  left.
Defined.

(** ** The embedder *)



(** X13.  With a model that embeds each string on its own, the result of
    the embedder does not depend on the batch size: two configurations with
    positive batch sizes give the same result on every processed-content
    map. *)
Theorem batch_size_does_not_change_the_result {vec : Type}
    (config config' : EmbeddingConfig)
    (encode : list string -> list vec) (embed_one : string -> vec)
    (processed_content : list (string * (list string * Metadata))) :
  (∀ batch, encode batch = map embed_one batch) →
  (0 < batch_size config)%Z →
  (0 < batch_size config')%Z →
  NoDup (Py.keys processed_content) →
  generate_embeddings config encode processed_content
  = generate_embeddings config' encode processed_content.
Proof.
  intros Hrows Hpos Hpos' Hnd.
  rewrite (generate_embeddings_spec config encode embed_one Hrows Hpos _ Hnd).
  by rewrite (generate_embeddings_spec config' encode embed_one Hrows Hpos' _ Hnd).
Qed.

Lemma batch_size_does_not_change_the_result_witness :
  generate_embeddings
    {| model_name := "all-MiniLM-L6-v2"; device := "cpu";
       batch_size := 2; normalize_embeddings := true |}
    (map String.length)
    [("https://example.com", (["alpha"; "be"; "gamma"], []))]
  = generate_embeddings
      {| model_name := "all-MiniLM-L6-v2"; device := "cpu";
         batch_size := 32; normalize_embeddings := true |}
      (map String.length)
      [("https://example.com", (["alpha"; "be"; "gamma"], []))].
Proof.
  refine (batch_size_does_not_change_the_result _ _ (map String.length)
            String.length _ _ _ _ _).
  - reflexivity.
  - simpl. lia.
  - simpl. lia.
  - apply (bool_decide_unpack _). vm_compute. exact I.
Defined.

Lemma slice_nil {A} (i j : nat) : Py.slice i j (@nil A) = [].
Proof. unfold Py.slice. by rewrite drop_nil, take_nil. Qed.

Lemma regroup_without_embeddings {vec : Type}
    (rest : list (string * (list string * Metadata))) :
  ∀ (a : nat) idx (results : list (string * (list string * list vec * Metadata))),
    NoDup (Py.keys rest) →
    (∀ u, u ∈ Py.keys rest → (u ∉ Py.keys idx) ∧ (u ∉ Py.keys results)) →
    regroup rest (idx ++ ranges a rest) [] results
    = Some (results ++ map unembedded rest).
Proof.
  induction rest as [|[url [chunks md]] rest IH];
    intros a idx results Hnd Hfresh; simpl.
  - by rewrite app_nil_r.
  - apply NoDup_cons in Hnd as [Hurl Hnd].
    destruct (Hfresh url) as [Hidx Hres]; [left|].
    rewrite dict_get_app_fresh by done.
    rewrite (dict_set_fresh _ _ results) by done.
    change (idx ++ (url, (a, a + length chunks)) :: ranges (a + length chunks) rest)
      with (idx ++ [(url, (a, a + length chunks))] ++ ranges (a + length chunks) rest).
    rewrite app_assoc, IH; [|done|].
    + rewrite <- app_assoc. simpl. by rewrite slice_nil.
    + intros u Hu. rewrite !keys_app, !elem_of_app. simpl.
      rewrite !list_elem_of_singleton.
      destruct (Hfresh u) as [? ?]; [by right|].
      assert (u ≠ url) by (intros ->; done). tauto.
Qed.

(** X14.  A batch size that is not positive is accepted by the
    configuration and defeats the embedder.  With batch size 0 the method
    raises on every input (the step of [range] is zero).  With a negative
    batch size it raises nothing and returns every URL with its chunks and
    an empty embedding list: no chunk is embedded. *)
Theorem nonpositive_batch_size_embeds_nothing {vec : Type}
    (config : EmbeddingConfig) (encode : list string -> list vec)
    (processed_content : list (string * (list string * Metadata))) :
  (batch_size config = 0%Z →
   generate_embeddings config encode processed_content = None)
  ∧ ((batch_size config < 0)%Z →
     NoDup (Py.keys processed_content) →
     generate_embeddings config encode processed_content
     = Some (map unembedded processed_content)).
Proof.
  split.
  - intros H0. unfold generate_embeddings.
    destruct (collect_chunks _ _ _) as [all idx].
    unfold encode_batches, py_range. by rewrite H0.
  - intros Hneg Hnd. unfold generate_embeddings.
    rewrite collect_chunks_spec; [|done|by intros ? _ ?%elem_of_nil].
    unfold encode_batches, py_range.
    destruct (batch_size config =? 0)%Z eqn:H0; [apply Z.eqb_eq in H0; lia|].
    destruct (0 <? batch_size config)%Z eqn:Hp; [apply Z.ltb_lt in Hp; lia|].
    simpl. apply (regroup_without_embeddings processed_content 0 [] []); [done|].
    intros u _. split; by intros ?%elem_of_nil.
Qed.

Lemma nonpositive_batch_size_embeds_nothing_witness :
  generate_embeddings
    {| model_name := "all-MiniLM-L6-v2"; device := "cpu";
       batch_size := 0; normalize_embeddings := true |}
    (map String.length)
    [("https://example.com", (["alpha"; "be"; "gamma"], []))]
  = None.
Proof.
  refine (proj1 (nonpositive_batch_size_embeds_nothing _ (map String.length) _) _).
  reflexivity.
Defined.

(** ** Excerpts *)

Lemma length_append (s1 s2 : string) :
  String.length (s1 +:+ s2) = (String.length s1 + String.length s2)%nat.
Proof. induction s1 as [|c s1 IH]; simpl; [done|]. by rewrite IH. Qed.

Lemma length_substring_0 (n : nat) (s : string) :
  String.length (String.substring 0 n s) = min n (String.length s).
Proof.
  revert s. induction n as [|n IH]; intros [|c s]; simpl; try done.
  by rewrite IH.
Qed.

Lemma truncate_length (n : nat) (s : string) :
  (String.length (Py.truncate n s) <= n + 3)%nat
  ∧ ((String.length s <= n)%nat → Py.truncate n s = s)
  ∧ ((n < String.length s)%nat →
     Py.truncate n s = String.substring 0 n s +:+ "...").
Proof.
  unfold Py.truncate. destruct (n <? String.length s)%nat eqn:Hlt.
  - apply Nat.ltb_lt in Hlt. split; [|split; [lia|done]].
    rewrite length_append, length_substring_0. simpl. lia.
  - apply Nat.ltb_ge in Hlt. split; [lia|]. split; [done|lia].
Qed.

(** ** The storage *)

(** X15.  [save] writes the two configured paths and no other: every other
    file is as it was.  When both paths are the same file, the JSON document
    replaces the index just written, and [load] after [save] fails to read
    the index instead of returning the stored data. *)
Theorem save_writes_its_two_paths {F : Type} (to_float32 : F -> F)
    (config : StorageConfig)
    (embeddings_data : list (string * (list string * list (list F) * Metadata)))
    (files files' : gmap string file) :
  save to_float32 config embeddings_data files = Some files' →
  (∀ p, p ≠ index_path config → p ≠ metadata_path config →
        files' !! p = files !! p)
  ∧ is_Some (files' !! index_path config)
  ∧ is_Some (files' !! metadata_path config)
  ∧ (index_path config = metadata_path config → load config files' = ReadError).
Proof.
  unfold save. destruct (np_dimension _) as [dimension|]; [|done].
  intros [= <-]. split; [|split; [|split]].
  - intros p Hi Hm. by rewrite !lookup_insert_ne.
  - destruct (decide (metadata_path config = index_path config)) as [->|Hne].
    + rewrite lookup_insert_eq. eauto.
    + rewrite lookup_insert_ne by done. rewrite lookup_insert_eq. eauto.
  - rewrite lookup_insert_eq. eauto.
  - intros Heq. unfold load. rewrite Heq. by rewrite !lookup_insert_eq.
Qed.

Lemma save_writes_its_two_paths_witness :
  load {| storage_type := "faiss"; index_path := "data/store";
          metadata_path := "data/store" |}
    (default ∅
       (save id {| storage_type := "faiss"; index_path := "data/store";
                   metadata_path := "data/store" |} Stored.aligned ∅))
  = ReadError.
Proof.
  refine (proj2 (proj2 (proj2 (save_writes_its_two_paths id
            {| storage_type := "faiss"; index_path := "data/store";
               metadata_path := "data/store" |} Stored.aligned ∅ _ _))) _).
  - reflexivity.
  - reflexivity.
Defined.

Lemma flatten_url_lookup {F : Type} (chunks : list string) :
  ∀ (i j : nat) (embs : list (list F)) (md : Metadata) t,
    flatten_url i chunks embs md !! j = Some t →
    chunks !! j = Some (fst (fst t))
    ∧ embs !! j = Some (snd (fst t))
    ∧ snd t
      = Py.dict_set "chunk_text" (PStr (Py.truncate 100 (fst (fst t))))
          (Py.dict_set "chunk_id" (PInt (Z.of_nat (i + j))) md).
Proof.
  induction chunks as [|chunk chunks IH]; intros i j [|e embs] md t; simpl;
    try done.
  destruct j as [|j]; simpl.
  - intros [= <-]. simpl. by rewrite Nat.add_0_r.
  - intros Ht. destruct (IH (S i) j embs md t Ht) as (Hc & He & Hm).
    split; [done|]. split; [done|]. rewrite Hm. do 4 f_equal. lia.
Qed.

(** X16.  What [save] persists for a chunk.  Every persisted triple comes
    from one URL of the input and one position [j] that its chunk list and
    its embedding list both have; it holds the chunk and the embedding at
    that position.  Its metadata has [chunk_id] equal to [j], the position of
    the chunk within its page, has [chunk_text] equal to the chunk cut to
    100 characters and an ellipsis (at most 103 characters), and has every
    other key as the page metadata has it. *)
Theorem persisted_metadata_of_a_chunk {F : Type}
    (embeddings_data : list (string * (list string * list (list F) * Metadata)))
    (t : string * list F * Metadata) :
  t ∈ flatten embeddings_data →
  ∃ url chunks embs md j,
    (url, (chunks, embs, md)) ∈ embeddings_data
    ∧ chunks !! j = Some (fst (fst t))
    ∧ embs !! j = Some (snd (fst t))
    ∧ Py.dict_get "chunk_id" (snd t) = Some (PInt (Z.of_nat j))
    ∧ (∃ excerpt,
         Py.dict_get "chunk_text" (snd t) = Some (PStr excerpt)
         ∧ excerpt = Py.truncate 100 (fst (fst t))
         ∧ (String.length excerpt <= 103)%nat)
    ∧ ∀ k, k ≠ "chunk_id" → k ≠ "chunk_text" →
           Py.dict_get k (snd t) = Py.dict_get k md.
Proof.
  unfold flatten. intros Ht. apply list_elem_of_In, in_flat_map in Ht.
  destruct Ht as ([url [[chunks embs] md]] & Hin & Ht). simpl in Ht.
  apply list_elem_of_In, list_elem_of_lookup in Ht as [j Hj].
  destruct (flatten_url_lookup chunks 0 j embs md t Hj) as (Hc & He & Hm).
  exists url, chunks, embs, md, j.
  split; [by apply list_elem_of_In|]. split; [done|]. split; [done|].
  rewrite Hm. simpl. split; [|split].
  - rewrite dict_get_set_ne by done. apply dict_get_set_eq.
  - eexists. split; [apply dict_get_set_eq|]. split; [done|].
    apply truncate_length.
  - intros k Hk1 Hk2. by rewrite !dict_get_set_ne.
Qed.

Lemma persisted_metadata_of_a_chunk_witness :
  ∃ j, ["first chunk"; "second chunk"] !! j = Some "second chunk"
       ∧ Py.dict_get "chunk_id"
           (Stored.page_metadata
              ++ [("chunk_id", PInt 1); ("chunk_text", PStr "second chunk")])
         = Some (PInt (Z.of_nat j)).
Proof.
  destruct (persisted_metadata_of_a_chunk Stored.aligned
              ("second chunk", [4; 5; 6]%Z,
               Stored.page_metadata
                 ++ [("chunk_id", PInt 1); ("chunk_text", PStr "second chunk")]))
    as (url & chunks & embs & md & j & Hin & Hc & _ & Hid & _).
  - apply (list_elem_of_lookup_2 _ 1). vm_compute. reflexivity.
  - exists j. apply list_elem_of_singleton in Hin. injection Hin as _ <- _ _.
    split; [exact Hc | exact Hid].
Defined.

(** ** Text cleaning *)

Lemma collapse_whitespace_only_spaces (c : ascii) (b : bool) (text : string) :
  Py.isspace c = true → c ≠ " "%char →
  has_char c (collapse_whitespace b text) = false.
Proof.
  intros Hc Hsp. revert b. induction text as [|a text IH]; intros b; [done|].
  cbn [collapse_whitespace]. destruct (Py.isspace a) eqn:Ha.
  - destruct b; [apply IH|]. cbn [has_char]. rewrite IH.
    destruct (Ascii.eqb " " c) eqn:Heq; [|done].
    apply Ascii.eqb_eq in Heq. congruence.
  - cbn [has_char]. rewrite IH. destruct (Ascii.eqb a c) eqn:Heq; [|done].
    apply Ascii.eqb_eq in Heq. congruence.
Qed.

Lemma length_rev_app (s1 s2 : string) :
  String.length (String.rev_app s1 s2) = (String.length s1 + String.length s2)%nat.
Proof.
  revert s2. induction s1 as [|c s1 IH]; intros s2; simpl; [done|].
  rewrite IH. simpl. lia.
Qed.

Lemma length_lstrip (s : string) :
  (String.length (Py.lstrip s) <= String.length s)%nat.
Proof.
  induction s as [|c s IH]; simpl; [done|].
  destruct (Py.isspace c); simpl; lia.
Qed.

Lemma length_strip (s : string) :
  (String.length (Py.strip s) <= String.length s)%nat.
Proof.
  unfold Py.strip, Py.rstrip, String.rev.
  rewrite length_rev_app. simpl.
  pose proof (length_lstrip (String.rev_app (Py.lstrip s) "")) as H1.
  rewrite length_rev_app in H1. simpl in H1.
  pose proof (length_lstrip s). lia.
Qed.

(** X17.  What [_clean_text] returns, for every text and configuration.
    The result holds no whitespace character other than the space: no tab,
    no line break, no carriage return.  It is the empty string, or it is
    longer than [min_content_length]: a cleaned text is never a short
    non-empty text. *)
Theorem clean_text_shape (redact_emails : string -> string)
    (config : ProcessorConfig) (text : string) (c : ascii) :
  let cleaned := _clean_text redact_emails config text in
  (Py.isspace c = true → c ≠ " "%char → has_char c cleaned = false)
  ∧ (cleaned = ""
     ∨ (min_content_length config < Z.of_nat (String.length cleaned))%Z).
Proof.
  cbv zeta. rewrite clean_text_all_or_nothing.
  destruct (long_enough _ _) eqn:Hlong.
  - split.
    + intros Hc Hsp. unfold normalized.
      by apply has_char_strip, collapse_whitespace_only_spaces.
    + right. unfold long_enough in Hlong. apply Z.ltb_lt in Hlong.
      pose proof (length_strip (normalized redact_emails config text)). lia.
  - split; [done|by left].
Qed.

Lemma clean_text_shape_witness :
  has_char "009" (_clean_text (fun text => text) default_processor_config
                    Text.with_nav) = false.
Proof.
  refine (proj1 (clean_text_shape (fun text => text) default_processor_config
                   Text.with_nav "009") _ _).
  - reflexivity.
  - discriminate.
Defined.

(** ** Content processing *)

Lemma dict_set_elem {V} (k : string) (v : V) (d : list (string * V)) (x : string * V) :
  x ∈ Py.dict_set k v d → x = (k, v) ∨ x ∈ d.
Proof.
  induction d as [|[k' v'] d IH]; simpl.
  - intros ->%list_elem_of_singleton. by left.
  - destruct (decide (k = k')) as [->|Hne]; rewrite !elem_of_cons.
    + tauto.
    + intros [->|Hx]; [tauto|]. destruct (IH Hx); tauto.
Qed.

Lemma extract_metadata_url (parsed : ParsedHtml) (url : string) :
  Py.dict_get "url" (_extract_metadata parsed url) = Some (PStr url).
Proof.
  unfold _extract_metadata.
  destruct (html_published parsed) as [c3|]; [destruct (String.eqb c3 "")|];
    destruct (html_description parsed) as [c2|];
    try destruct (String.eqb c2 ""); destruct (html_title parsed) as [c1|];
    rewrite ?dict_get_set_ne by done; reflexivity.
Qed.

Section ProcessorMore.
Variable redact_emails : string -> string.
Variable config : ProcessorConfig.
Variable parse : string -> option ParsedHtml.
Variable split_text : string -> list string.
Variable read_text : string -> option string.

Abbreviation keep := (kept redact_emails config parse split_text read_text).
Abbreviation process_step :=
  (fun (results : list (string * (list string * Metadata)))
       (entry : string * string) =>
     match keep (fst entry) (snd entry) with
     | Some stored => Py.dict_set (fst entry) stored results
     | None => results
     end).

Lemma process_content_fold (content_map : list (string * string)) :
  process_content redact_emails config parse split_text read_text content_map
  = fold_left process_step content_map [].
Proof.
  unfold process_content. generalize (@nil (string * (list string * Metadata))).
  induction content_map as [|[url file_path] rest IH]; intros acc; simpl; [done|].
  rewrite IH. f_equal. unfold kept.
  destruct (read_text file_path) as [html|]; [|done].
  destruct (process_html _ _ _ _ html url) as [[[|chunk chunks] md]|]; done.
Qed.

Lemma process_fold_elem (content_map : list (string * string)) :
  ∀ acc x,
    x ∈ fold_left process_step content_map acc →
    x ∈ acc
    ∨ ∃ file_path, (fst x, file_path) ∈ content_map
                   ∧ keep (fst x) file_path = Some (snd x).
Proof.
  induction content_map as [|[url file_path] rest IH]; intros acc x; simpl.
  - by left.
  - intros [Hx|(fp & Hin & Hk)]%IH.
    + destruct (keep url file_path) as [stored|] eqn:Hkeep; [|by left].
      apply dict_set_elem in Hx as [->|Hx]; [|by left].
      right. exists file_path. split; [left|done].
    + right. exists fp. split; [by right|done].
Qed.

Lemma process_fold_NoDup (content_map : list (string * string)) :
  ∀ acc, NoDup (Py.keys acc) →
         NoDup (Py.keys (fold_left process_step content_map acc)).
Proof.
  induction content_map as [|[url file_path] rest IH]; intros acc Hacc; simpl;
    [done|].
  apply IH. destruct (keep url file_path); [by apply dict_set_NoDup|done].
Qed.

Lemma kept_shape (url file_path : string) (chunks : list string) (md : Metadata) :
  keep url file_path = Some (chunks, md) →
  ∃ html parsed,
    read_text file_path = Some html
    ∧ parse html = Some parsed
    ∧ md = _extract_metadata parsed url
    ∧ chunks = split_text (_clean_text redact_emails config (html_text parsed))
    ∧ chunks ≠ []
    ∧ (min_content_length config
       <= Z.of_nat (String.length
                      (_clean_text redact_emails config (html_text parsed))))%Z.
Proof.
  unfold kept, process_html.
  destruct (read_text file_path) as [html|] eqn:Hread; [|done].
  destruct (parse html) as [parsed|] eqn:Hparse; [|done].
  destruct (_ <? _)%Z eqn:Hshort; [done|]. apply Z.ltb_ge in Hshort.
  destruct (split_text _) as [|chunk rest] eqn:Hsplit; [done|].
  intros [= <- <-]. exists html, parsed.
  split; [done|]. split; [done|]. split; [done|].
  split; [by rewrite Hsplit|]. split; [done|exact Hshort].
Qed.
End ProcessorMore.

Lemma keys_unique_value {V} (d : list (string * V)) (k : string) (v1 v2 : V) :
  NoDup (Py.keys d) → (k, v1) ∈ d → (k, v2) ∈ d → v1 = v2.
Proof.
  unfold Py.keys. induction d as [|[k' v'] d IH]; simpl.
  - by intros _ ?%elem_of_nil.
  - intros [Hk Hd]%NoDup_cons [[= -> ->]|H1]%elem_of_cons [[= ?]|H2]%elem_of_cons.
    + done.
    + exfalso. apply Hk, list_elem_of_fmap. by exists (k', v2).
    + subst. exfalso. apply Hk, list_elem_of_fmap. by exists (k', v1).
    + by apply IH.
Qed.

(** X18.  What [process_content] returns.  Its keys are distinct.  Every
    entry belongs to a page of the content map that could be read and
    parsed; its chunks are the pieces into which the splitter cuts the
    cleaned text of that page, and there is at least one; its metadata is
    the metadata extracted from the page and names the page's URL under the
    key [url].  A page that cannot be read or parsed raises nothing and is
    left out.  With a positive minimum length, a page whose normalised text
    is not longer than the minimum is left out of the result. *)
Theorem process_content_keeps_pages_with_chunks
    (redact_emails : string -> string) (config : ProcessorConfig)
    (parse : string -> option ParsedHtml) (split_text : string -> list string)
    (read_text : string -> option string)
    (content_map : list (string * string)) :
  let results :=
    process_content redact_emails config parse split_text read_text content_map in
  NoDup (Py.keys results)
  ∧ (∀ url chunks md, (url, (chunks, md)) ∈ results →
       ∃ file_path html parsed,
         (url, file_path) ∈ content_map
         ∧ read_text file_path = Some html
         ∧ parse html = Some parsed
         ∧ md = _extract_metadata parsed url
         ∧ Py.dict_get "url" md = Some (PStr url)
         ∧ chunks = split_text (_clean_text redact_emails config (html_text parsed))
         ∧ chunks ≠ [])
  ∧ (NoDup (Py.keys content_map) →
     ∀ url file_path,
       (url, file_path) ∈ content_map →
       (read_text file_path = None
        ∨ ∃ html, read_text file_path = Some html
                  ∧ (parse html = None
                     ∨ ∃ parsed,
                         parse html = Some parsed
                         ∧ (0 < min_content_length config)%Z
                         ∧ (Z.of_nat (String.length
                               (Py.strip (normalized redact_emails config
                                            (html_text parsed))))
                            <= min_content_length config)%Z)) →
       url ∉ Py.keys results).
Proof.
  cbv zeta. rewrite process_content_fold. split; [|split].
  - apply process_fold_NoDup, NoDup_nil_2.
  - intros url chunks md Hin.
    apply process_fold_elem in Hin as [[]%elem_of_nil|(fp & Hfp & Hk)].
    simpl in Hfp, Hk.
    apply kept_shape in Hk as (html & parsed & Hr & Hp & -> & Hc & Hne & _).
    exists fp, html, parsed. repeat (split; [done|]).
    split; [apply extract_metadata_url|done].
  - intros Hnd url fp Hin Hbad Hkey.
    unfold Py.keys in Hkey. apply list_elem_of_fmap in Hkey as ([u [chunks md]] & -> & Hx).
    apply process_fold_elem in Hx as [[]%elem_of_nil|(fp' & Hfp' & Hk)].
    simpl in Hfp', Hk.
    rewrite (keys_unique_value _ _ _ _ Hnd Hfp' Hin) in Hk.
    pose proof Hk as Hk'.
    apply kept_shape in Hk as (html & parsed & Hr & Hp & _ & _ & _ & Hlen).
    destruct Hbad as [Hnone|(html' & Hr' & [Hnone|(parsed' & Hp' & Hpos & Hshort)])].
    + congruence.
    + congruence.
    + assert (html' = html) as -> by congruence.
      assert (parsed' = parsed) as -> by congruence.
      rewrite clean_text_all_or_nothing in Hlen.
      unfold long_enough in Hlen.
      destruct (_ <? _)%Z eqn:Hlt in Hlen; [apply Z.ltb_lt in Hlt; lia|].
      simpl in Hlen. lia.
Qed.

Lemma process_content_keeps_pages_with_chunks_witness :
  "https://example.com/nav"
  ∉ Py.keys
      (process_content (fun text => text) default_processor_config
         (fun html => Some {| html_title := Some "Example"; html_description := None;
                              html_published := None; html_text := html |})
         (fun text => [text])
         (fun file_path => if String.eqb file_path "nav.html"
                           then Some "Home"
                           else Some Text.with_nav)
         [("https://example.com", "index.html");
          ("https://example.com/nav", "nav.html")]).
Proof.
  refine (proj2 (proj2 (process_content_keeps_pages_with_chunks
            (fun text => text) default_processor_config
            (fun html => Some {| html_title := Some "Example";
                                 html_description := None;
                                 html_published := None; html_text := html |})
            (fun text => [text])
            (fun file_path => if String.eqb file_path "nav.html"
                              then Some "Home"
                              else Some Text.with_nav)
            [("https://example.com", "index.html");
             ("https://example.com/nav", "nav.html")]))
          _ "https://example.com/nav" "nav.html" _ _).
  - apply (bool_decide_unpack _). vm_compute. exact I.
  - apply (bool_decide_unpack _). vm_compute. exact I.
  - right. exists "Home". split; [reflexivity|]. right.
    eexists. split; [reflexivity|]. split; [reflexivity|].
    vm_compute. discriminate.
Defined.

(** ** The stages of [main] together *)

Lemma generate_embeddings_empty {vec : Type} (config : EmbeddingConfig)
    (encode : list string -> list vec) :
  generate_embeddings config encode []
  = if (batch_size config =? 0)%Z then None else Some [].
Proof.
  unfold generate_embeddings, encode_batches, py_range.
  cbn [collect_chunks length].
  destruct (batch_size config =? 0)%Z eqn:H0; [done|].
  destruct (0 <? batch_size config)%Z eqn:Hp; [|done].
  apply Z.eqb_neq in H0. apply Z.ltb_lt in Hp.
  replace ((Z.of_nat 0 + batch_size config - 1) / batch_size config)%Z with 0%Z
    by (symmetry; apply Z.div_small; lia).
  done.
Qed.

(** X19.  A crawl that stored pages of which none yields a chunk does not
    end as a run with nothing to do.  [main] starts the processing, the
    embedding and the storage stage; the embedder returns an empty result,
    [save] raises on it, and the process exits with status 1.  (With batch
    size 0 the embedder raises first.) *)
Theorem run_without_chunks_ends_in_an_error {F : Type}
    (redact_emails : string -> string) (pconfig : ProcessorConfig)
    (parse : string -> option ParsedHtml) (split_text : string -> list string)
    (read_text : string -> option string)
    (econfig : EmbeddingConfig) (encode : list string -> list (list F))
    (to_float32 : F -> F) (sconfig : StorageConfig) (files : gmap string file)
    (content_map : list (string * string)) :
  content_map ≠ [] →
  process_content redact_emails pconfig parse split_text read_text content_map = [] →
  pipeline (process_content redact_emails pconfig parse split_text read_text)
    (generate_embeddings econfig encode)
    (storage_stage to_float32 sconfig files) content_map
  = {| scraped := content_map;
       stages := if (batch_size econfig =? 0)%Z then [Process; Embed]
                 else [Process; Embed; Save];
       exit_status := 1 |}.
Proof.
  intros Hne Hempty. unfold pipeline.
  destruct content_map as [|entry rest]; [done|].
  rewrite Hempty, generate_embeddings_empty.
  destruct (batch_size econfig =? 0)%Z; [done|].
  unfold storage_stage, save. done.
Qed.

Lemma run_without_chunks_ends_in_an_error_witness :
  pipeline
    (process_content (fun text => text) default_processor_config
       (fun html => Some {| html_title := None; html_description := None;
                            html_published := None; html_text := html |})
       (fun text => [text]) (fun _ => Some "Home"))
    (generate_embeddings
       {| model_name := "all-MiniLM-L6-v2"; device := "cpu";
          batch_size := 32; normalize_embeddings := true |}
       (map (fun chunk => [Z.of_nat (String.length chunk)])))
    (storage_stage id Stored.config ∅)
    [("https://example.com", "index.html")]
  = {| scraped := [("https://example.com", "index.html")];
       stages := [Process; Embed; Save];
       exit_status := 1 |}.
Proof.
  refine (run_without_chunks_ends_in_an_error (fun text => text)
            default_processor_config _ _ _
            {| model_name := "all-MiniLM-L6-v2"; device := "cpu";
               batch_size := 32; normalize_embeddings := true |}
            _ id Stored.config ∅ [("https://example.com", "index.html")] _ _).
  - discriminate.
  - vm_compute. reflexivity.
Defined.

Lemma all_chunks_embedded {F : Type} (embed_one : string -> list F)
    (processed : list (string * (list string * Metadata))) :
  all_chunks (map (embedded embed_one) processed) = all_chunks_of processed
  ∧ all_embeddings (map (embedded embed_one) processed)
    = map embed_one (all_chunks_of processed).
Proof.
  rewrite all_chunks_zip, all_embeddings_zip. unfold all_chunks_of.
  induction processed as [|[url [chunks md]] rest [IH1 IH2]]; simpl; [done|].
  rewrite IH1, IH2, length_map, Nat.min_id, map_app.
  by rewrite !firstn_all2 by (rewrite ?length_map; lia).
Qed.

Lemma np_dimension_uniform {F : Type} (embed_one : string -> list F) (d : nat)
    (chunks : list string) :
  (∀ chunk, length (embed_one chunk) = d) → chunks ≠ [] →
  np_dimension (map embed_one chunks) = Some d.
Proof.
  intros Hd Hne. destruct chunks as [|chunk rest]; [done|]. simpl.
  rewrite Hd.
  replace (forallb _ _) with true; [done|]. symmetry. apply forallb_forall.
  intros r (c & <- & _)%in_map_iff. rewrite Hd. apply Nat.eqb_refl.
Qed.

(** X20.  The stages together, when at least one page yields a chunk.
    With a model that embeds each chunk on its own into a vector of a fixed
    dimension, a positive batch size and two different storage paths, a run
    of [main] on the crawled pages starts the three stages and ends with
    status 0; the embedder returns, [save] returns, and [load] on the files
    it leaves returns an index of that dimension with the embedding of
    every chunk of every processed page, and the chunk list made of every
    chunk of every processed page, both in the order of the pages and, within
    a page, of its chunks. *)
Theorem run_with_chunks_stores_every_chunk {F : Type}
    (redact_emails : string -> string) (pconfig : ProcessorConfig)
    (parse : string -> option ParsedHtml) (split_text : string -> list string)
    (read_text : string -> option string)
    (econfig : EmbeddingConfig) (encode : list string -> list (list F))
    (embed_one : string -> list F) (dimension : nat)
    (to_float32 : F -> F) (sconfig : StorageConfig) (files : gmap string file)
    (content_map : list (string * string)) :
  (∀ batch, encode batch = map embed_one batch) →
  (∀ chunk, length (embed_one chunk) = dimension) →
  (0 < batch_size econfig)%Z →
  index_path sconfig ≠ metadata_path sconfig →
  let processed :=
    process_content redact_emails pconfig parse split_text read_text content_map in
  processed ≠ [] →
  pipeline (process_content redact_emails pconfig parse split_text read_text)
    (generate_embeddings econfig encode)
    (storage_stage to_float32 sconfig files) content_map
  = {| scraped := content_map; stages := [Process; Embed; Save]; exit_status := 0 |}
  ∧ ∃ data files',
      generate_embeddings econfig encode processed = Some data
      ∧ save to_float32 sconfig data files = Some files'
      ∧ load sconfig files'
        = Loaded dimension
            (map (map to_float32) (map embed_one (all_chunks_of processed)))
            (PList (map PStr (all_chunks_of processed)))
            (PList (map PDict (all_metadata data))).
Proof.
  intros Hrows Hdim Hpos Hpaths processed Hne.
  assert (NoDup (Py.keys processed)) as Hnd.
  { unfold processed. rewrite process_content_fold.
    apply process_fold_NoDup, NoDup_nil_2. }
  assert (all_chunks_of processed ≠ []) as Hchunks.
  { destruct processed as [|[url [chunks md]] rest] eqn:Hp; [done|].
    assert ((url, (chunks, md)) ∈ processed) as Hin by (rewrite Hp; left).
    unfold processed in Hin. rewrite process_content_fold in Hin.
    apply process_fold_elem in Hin as [[]%elem_of_nil|(fp & _ & Hk)].
    apply kept_shape in Hk as (_ & _ & _ & _ & _ & _ & Hc & _).
    simpl in Hc. unfold all_chunks_of. simpl.
    destruct chunks; [done|]. done. }
  pose proof (generate_embeddings_spec econfig encode embed_one Hrows Hpos
                processed Hnd) as Hgen.
  destruct (all_chunks_embedded embed_one processed) as [Hac Hae].
  assert (∃ files', save to_float32 sconfig
                      (map (embedded embed_one) processed) files = Some files')
    as [files' Hsave].
  { unfold save. rewrite Hae, (np_dimension_uniform embed_one dimension) by done.
    eauto. }
  split.
  - unfold pipeline. destruct content_map as [|entry rest]; [done|].
    fold processed. rewrite Hgen. unfold storage_stage. by rewrite Hsave.
  - exists (map (embedded embed_one) processed), files'.
    split; [done|]. split; [done|].
    destruct (load_after_save to_float32 sconfig _ files files' Hpaths Hsave)
      as (dim & Hnp & Hload).
    rewrite Hae, (np_dimension_uniform embed_one dimension) in Hnp by done.
    injection Hnp as <-. rewrite Hload. by rewrite Hac, Hae.
Qed.

Lemma run_with_chunks_stores_every_chunk_witness :
  pipeline
    (process_content (fun text => text) default_processor_config
       (fun html => Some {| html_title := None; html_description := None;
                            html_published := None; html_text := html |})
       (fun text => [text]) (fun _ => Some Text.with_nav))
    (generate_embeddings
       {| model_name := "all-MiniLM-L6-v2"; device := "cpu";
          batch_size := 32; normalize_embeddings := true |}
       (map (fun chunk => [Z.of_nat (String.length chunk)])))
    (storage_stage id Stored.config ∅)
    [("https://example.com", "index.html")]
  = {| scraped := [("https://example.com", "index.html")];
       stages := [Process; Embed; Save];
       exit_status := 0 |}.
Proof.
  refine (proj1 (run_with_chunks_stores_every_chunk (fun text => text)
            default_processor_config _ _ _
            {| model_name := "all-MiniLM-L6-v2"; device := "cpu";
               batch_size := 32; normalize_embeddings := true |}
            (map (fun chunk => [Z.of_nat (String.length chunk)]))
            (fun chunk => [Z.of_nat (String.length chunk)]) 1
            id Stored.config ∅ [("https://example.com", "index.html")]
            _ _ _ _ _)).
  - reflexivity.
  - reflexivity.
  - simpl. lia.
  - discriminate.
  - vm_compute. discriminate.
Defined.

(** ** The discovery table *)



(** ** The end of a crawl pass *)

Section CrawlEnd.
Variable urlparse : string -> ParseResult.
Variable session_get : string -> response.
Variable config : ScraperConfig.
Variable disallowed_paths : list string.
Context {R : Type}.
Variable on_page : string -> Page -> R -> R.
Variable budget : Z.

Abbreviation covered := (links_covered urlparse session_get config disallowed_paths).

Lemma body_preserves_covered (s : crawl_state R) :
  covered s →
  covered (loop_body urlparse session_get config disallowed_paths on_page s).
Proof.
  intros Hs. unfold loop_body.
  destruct (urls_to_visit s) as [|url rest] eqn:Hq; [done|].
  destruct Hs as [Hstart Hlinks]. rewrite Hq in Hstart, Hlinks.
  assert (∀ x (V : gset string) (Q : list string),
            visited_urls s ⊆ V → url ∈ V → (∀ y, y ∈ rest → y ∈ Q) →
            x ∈ visited_urls s ∨ x ∈ url :: rest → x ∈ V ∨ x ∈ Q) as Hmove.
  { intros x V Q HV Hurl HQ [Hx|[->|Hx]%elem_of_cons]; [left; set_solver|by left|].
    right. by apply HQ. }
  destruct (decide (url ∈ visited_urls s)) as [Hin|Hnin].
  { split; simpl.
    - intros u Hu. apply (Hmove u); [done|done|done|by apply Hstart].
    - intros u page hrefs h Hu Hget Ha Hh Hall.
      apply (Hmove h); [done|done|done|]. by eapply Hlinks. }
  set (visited := {[url]} ∪ visited_urls s).
  assert (visited_urls s ⊆ visited) as Hsub by set_solver.
  assert (url ∈ visited) as Hurl by set_solver.
  assert (∀ new : list string,
            (∀ page hrefs h, session_get url = Ok200 page →
               anchors page = Some hrefs → h ∈ hrefs →
               _is_allowed urlparse config disallowed_paths h = true →
               h ∈ visited ∨ h ∈ rest ++ new) →
            ∀ c : R, covered (CrawlState visited (rest ++ new) (requests s ++ [url]) c))
    as Hstep.
  { intros new Hnew c. split; simpl.
    - intros u Hu. apply (Hmove u); [done|done| |by apply Hstart].
      intros y Hy. apply elem_of_app. by left.
    - intros u page hrefs h [Hu| ->%list_elem_of_singleton]%elem_of_app
        Hget Ha Hh Hall.
      + apply (Hmove h); [done|done| |by eapply Hlinks].
        intros y Hy. apply elem_of_app. by left.
      + by eapply Hnew. }
  destruct (session_get url) as [|page] eqn:Hget.
  - rewrite <- (app_nil_r rest). apply Hstep. by intros ? ? ? [=].
  - destruct (anchors page) as [hrefs|] eqn:Ha.
    + apply Hstep. intros page' hrefs' h [= <-] Ha' Hh Hall.
      rewrite Ha in Ha'. injection Ha' as <-.
      destruct (decide (h ∈ visited)) as [Hv|Hv]; [by left|right].
      apply elem_of_app. right. unfold _extract_links.
      apply list_elem_of_In, filter_In. split; [by apply list_elem_of_In|].
      rewrite Hall. simpl. by apply negb_true_iff, bool_decide_eq_false.
    + rewrite <- (app_nil_r rest). apply Hstep.
      intros page' hrefs' h [= <-] Ha'. by rewrite Ha in Ha'.
Qed.

Lemma iter_preserves_covered (n : nat) (s : crawl_state R) :
  covered s →
  covered (loop_iter urlparse session_get config disallowed_paths on_page
             budget n s).
Proof.
  revert s. induction n as [|n IH]; intros s Hs; simpl; [done|].
  destruct (loop_cond budget s); [|done]. by apply IH, body_preserves_covered.
Qed.
End CrawlEnd.


